(** * Views of the content website: donor listing and post detail

    A shallow embedding of the two connected React components of the
    repository, [Donors] (the listing view) and [PostDetail] (the detail
    view), together with the fragment of JavaScript, Immutable.js and
    JSX they are written in.  [render] methods become functions from
    props to element trees in an exception monad; lifecycle methods and
    event handlers become functions from props to the ordered list of
    calls they make on the bound action creators. *)

From stdpp Require Import base option list strings gmap pretty.

Set Warnings "-register-all".

(** ** JavaScript values *)

Module JS.

(** The data a view can meet: primitives, plain objects and arrays, and
    the two Immutable.js collections the store is built from.  Numbers
    are the integers (identifiers, lengths, grid widths); objects and
    Immutable maps are keyed by strings.  [VObj] is a plain object with
    the usual prototype, [VProto proto fields] one whose prototype was
    set to [proto], an object or [null]. *)
Inductive value :=
| VUndef
| VNull
| VBool (b : bool)
| VNum (n : Z)
| VStr (s : string)
| VObj (fields : gmap string value)
| VArr (items : list value)
| IMap (entries : gmap string value)
| IList (items : list value)
| VProto (proto : value) (fields : gmap string value).

(** The only exception these views can raise is a [TypeError]: reading a
    property of [undefined] or [null], or calling something that is not
    a function. *)
Inductive exn := TypeError.

Inductive result (A : Type) :=
| Ok (a : A)
| Throw (e : exn).
Arguments Ok {A} a.
Arguments Throw {A} e.

#[global] Instance result_ret : MRet result := λ A a, Ok a.

#[global] Instance result_bind : MBind result := λ A B f r,
  match r with Ok a => f a | Throw e => Throw e end.

#[global] Instance result_fmap : FMap result := λ A B f r,
  match r with Ok a => Ok (f a) | Throw e => Throw e end.

Definition succeeds {A} (r : result A) : Prop := ∃ a, r = Ok a.

(** ToBoolean: [undefined], [null], [false], [0] and the empty string are
    falsy, every object is truthy. *)
Definition truthy (v : value) : bool :=
  match v with
  | VUndef | VNull => false
  | VBool b => b
  | VNum n => bool_decide (n ≠ 0%Z)
  | VStr s => bool_decide (s ≠ "")
  | VObj _ | VArr _ | IMap _ | IList _ | VProto _ _ => true
  end.

Definition nullish (v : value) : bool :=
  match v with
  | VUndef | VNull => true
  | _ => false
  end.

(** [a === c] against a primitive constant [c]: primitives compare by
    value, and no object is strictly equal to a primitive. *)
Definition strict_eq (a c : value) : bool :=
  match a, c with
  | VUndef, VUndef | VNull, VNull => true
  | VBool x, VBool y => bool_decide (x = y)
  | VNum x, VNum y => bool_decide (x = y)
  | VStr x, VStr y => bool_decide (x = y)
  | _, _ => false
  end.

(** What can stand as a prototype: an object or [null]. *)
Definition is_object (v : value) : bool :=
  match v with
  | VObj _ | VArr _ | IMap _ | IList _ | VProto _ _ => true
  | _ => false
  end.

(** The object left by [object = {}; object[k] = v] for every entry of
    [entries].  Assigning to ["__proto__"] does not create a field: it
    sets the prototype when the value is an object or [null], and does
    nothing otherwise. *)
Definition assign_all (entries : gmap string value) : value :=
  match entries !! "__proto__" with
  | Some proto =>
      if is_object proto || nullish proto
      then VProto proto (delete "__proto__" entries)
      else VObj (delete "__proto__" entries)
  | None => VObj entries
  end.

(** The data field [k] as found on an object or along its prototype
    chain: an own field first, then the prototype's. *)
Fixpoint field (o : value) (k : string) : value :=
  match o with
  | VObj m => default VUndef (m !! k)
  | VProto proto m =>
      match m !! k with
      | Some v => v
      | None => field proto k
      end
  | VArr l =>
      if bool_decide (k = "length") then VNum (Z.of_nat (length l)) else VUndef
  | _ => VUndef
  end.

(** [o.k], for [k] the name of a data field ([title], [user], [pk], ...)
    or [length].  Reading from [undefined] or [null] throws; an object
    answers with its own field, or with the one it inherits when its
    prototype was set; arrays and strings (sequences of code units) own
    [length]; nothing else in this universe has such a field. *)
Definition member (o : value) (k : string) : result value :=
  match o with
  | VUndef | VNull => Throw TypeError
  | VObj m => Ok (default VUndef (m !! k))
  | VArr l =>
      Ok (if bool_decide (k = "length")
          then VNum (Z.of_nat (length l)) else VUndef)
  | VStr s =>
      Ok (if bool_decide (k = "length")
          then VNum (Z.of_nat (String.length s)) else VUndef)
  | VBool _ | VNum _ | IMap _ | IList _ => Ok VUndef
  | VProto _ _ => Ok (field o k)
  end.

Section ToString.

(** [toString] of an Immutable collection prints its entries in the
    collection's own iteration order; it belongs to the library.  The
    string form of an object whose prototype chain does not end on a
    plain object is left to it as well. *)
Variable immutable_toString : value → string.

(** Whether a prototype chain ends on a plain object, whose [toString]
    is the usual one. *)
Fixpoint ends_plain (o : value) : bool :=
  match o with
  | VObj _ => true
  | VProto proto _ => ends_plain proto
  | _ => false
  end.

(** ToString, as a template literal applies it to [${e}].  An array
    joins its elements with commas, printing [undefined] and [null]
    elements as nothing. *)
Fixpoint to_string (v : value) : string :=
  match v with
  | VUndef => "undefined"
  | VNull => "null"
  | VBool b => if b then "true" else "false"
  | VNum n => pretty n
  | VStr s => s
  | VObj _ => "[object Object]"
  | VArr l =>
      String.concat "," (map (λ x, if nullish x then "" else to_string x) l)
  | IMap _ | IList _ => immutable_toString v
  | VProto proto _ =>
      if ends_plain proto then "[object Object]" else immutable_toString v
  end.

End ToString.

End JS.
Import JS.

(** ** Immutable.js (3.x): the methods the views call *)

Module Immutable.

(** Keys of a key path: a field name or a list index. *)
Inductive key :=
| KStr (s : string)
| KIdx (i : nat).

Definition is_collection (v : value) : bool :=
  match v with
  | IMap _ | IList _ => true
  | _ => false
  end.

(** [c.get(k, NOT_SET)], with [None] for [NOT_SET].  Maps here are keyed
    by field names and lists by position. *)
Definition lookup_key (c : value) (k : key) : option value :=
  match c, k with
  | IMap m, KStr s => m !! s
  | IList l, KIdx i => l !! i
  | _, _ => None
  end.

(** [m.get(k)] on a prop that is known to be an Immutable map. *)
Definition map_get (m : gmap string value) (k : string) : value :=
  default VUndef (m !! k).

(** The method call [c.get(k)]: only collections have the method. *)
Definition get (c : value) (k : key) : result value :=
  if is_collection c then Ok (default VUndef (lookup_key c k))
  else Throw TypeError.

(** The loop of [getIn]:
    [nested = nested && nested.get ? nested.get(key, NOT_SET) : NOT_SET;
     if (nested === NOT_SET) return notSetValue].
    A plain object has a [get] only as a data field, its own or an
    inherited one, which cannot be called. *)
Fixpoint getIn_from (nested : value) (path : list key) (notSetValue : value)
    : result value :=
  match path with
  | [] => Ok nested
  | k :: rest =>
      match nested with
      | IMap _ | IList _ =>
          match lookup_key nested k with
          | Some v => getIn_from v rest notSetValue
          | None => Ok notSetValue
          end
      | VObj m =>
          if truthy (default VUndef (m !! "get")) then Throw TypeError
          else Ok notSetValue
      | VProto _ _ =>
          if truthy (field nested "get") then Throw TypeError
          else Ok notSetValue
      | _ => Ok notSetValue
      end
  end.

(** The method call [c.getIn(path, notSetValue)]. *)
Definition getIn (c : value) (path : list key) (notSetValue : value)
    : result value :=
  if is_collection c then getIn_from c path notSetValue else Throw TypeError.

(** Deep conversion: [value && typeof value.toJS === 'function'
    ? value.toJS() : value] at every entry, the converted entries of a
    map being assigned one by one to a fresh object ([toObject]) and
    those of a list collected in an array. *)
Fixpoint toJS_deep (v : value) : value :=
  match v with
  | IMap m => assign_all (toJS_deep <$> m)
  | IList l => VArr (toJS_deep <$> l)
  | _ => v
  end.

(** The method call [c.toJS()]. *)
Definition toJS (c : value) : result value :=
  if is_collection c then Ok (toJS_deep c) else Throw TypeError.

(** Data as [fromJS] builds it from an API response: Immutable
    collections all the way down, with no plain object or array inside. *)
Fixpoint immutable_data (v : value) : bool :=
  match v with
  | VObj _ | VArr _ | VProto _ _ => false
  | IMap m => map_fold (λ _ x acc, immutable_data x && acc) true m
  | IList l => forallb immutable_data l
  | _ => true
  end.

End Immutable.

(** ** React elements *)

Module React.

(** The value of a JSX attribute: data, or an instance method handed
    over as a callback ([onClick={this.handleSignIn}]). *)
Inductive attr :=
| AVal (v : value)
| AThis (method : string).

(** What [render] returns: elements with their attributes as written
    and their children in order.  A child is an element, a value placed
    by [{e}] (text is a string value, and [false] is what a failed
    [cond && ...] leaves behind), or the collection of elements a [map]
    call produced: a sequence for arrays and Immutable lists, a keyed
    collection for Immutable maps. *)
Inductive node :=
| NExpr (v : value)
| NElem (type : string) (attrs : list (string * attr)) (children : list node)
| NSeq (items : list node)
| NKeyed (entries : gmap string node).

Definition text (s : string) : node := NExpr (VStr s).
Definition str (s : string) : attr := AVal (VStr s).
Definition nothing : node := NExpr (VBool false).

(** [c.map(cb)] where [cb] builds an element from an entry and its index
    or key.  Arrays, Immutable lists and Immutable maps have the method;
    on anything else the call is a [TypeError].  (A plain object has
    the method only when its prototype was set to an array, as [toJS]
    does for a map with a list under ["__proto__"]; the call on such an
    object is not followed here.) *)
Fixpoint map_from (cb : value → value → result node) (i : nat) (l : list value)
    : result (list node) :=
  match l with
  | [] => Ok []
  | x :: l' =>
      y ← cb x (VNum (Z.of_nat i)); ys ← map_from cb (S i) l'; Ok (y :: ys)
  end.

Definition map (c : value) (cb : value → value → result node) : result node :=
  match c with
  | VArr l | IList l => NSeq <$> map_from cb 0 l
  | IMap m =>
      (λ es, NKeyed (list_to_map es)) <$>
        mapM (λ kv, pair kv.1 <$> cb kv.2 (VStr kv.1)) (map_to_list m)
  | _ => Throw TypeError
  end.

(** All elements of a given type in a tree, outermost first. *)
Fixpoint select (ty : string) (n : node) : list node :=
  match n with
  | NExpr _ => []
  | NElem t _ ch =>
      (if bool_decide (t = ty) then [n] else []) ++ flat_map (select ty) ch
  | NSeq l => flat_map (select ty) l
  | NKeyed m => map_fold (λ _ c acc, select ty c ++ acc) [] m
  end.

(** The handler an element carries for an event. *)
Definition handler (event : string) (n : node) : option attr :=
  match n with
  | NElem _ attrs _ => snd <$> find (λ a, bool_decide (a.1 = event)) attrs
  | _ => None
  end.

End React.
Import React.

(** ** Calls on the bound action creators *)

Module Store.

(** The action creators [connect] binds into the props of the two views. *)
Inductive creator :=
| getDonorListPage
| getPostDetail
| getPostCommentList
| createPostComment
| show.

(** What a lifecycle method or handler does, in order: calls of bound
    action creators with their arguments (each call dispatches the
    action), and [e.preventDefault()] on the event it was given. *)
Inductive effect :=
| Call (f : creator) (args : list value)
| PreventDefault.

#[global] Instance creator_eq_dec : EqDecision creator.
Proof. solve_decision. Defined.

(** How many times a creator is called in a trace. *)
Definition is_call (f : creator) (e : effect) : bool :=
  match e with
  | Call g _ => bool_decide (f = g)
  | PreventDefault => false
  end.

Definition calls (f : creator) (tr : list effect) : nat :=
  length (List.filter (is_call f) tr).

End Store.
Import Store.

(** ** The listing view: [Donors] *)

Module Donors.

(** [donors] is the store slice the selector hands over, an Immutable
    map; [getDonorListPage] is bound by [connect] and shows up as a
    [Call] in the trace of the method that calls it. *)
Record props := { donors : gmap string value }.

Definition breadcrumbPath : value :=
  VArr [ VObj {[ "route" := VStr "/"; "text" := VStr "Home" ]};
         VObj {[ "text" := VStr "Donors" ]} ].

Definition componentWillMount (this : props) : list effect :=
  if negb (truthy (Immutable.map_get this.(donors) "donorListPageLoaded"))
  then [Call getDonorListPage []]
  else [].

(** The arrow function given to [donorListPage.map]. *)
Definition card (donor : value) : result node :=
  key ← Immutable.get donor (Immutable.KStr "pk");
  id ← Immutable.get donor (Immutable.KStr "pk");
  image ← Immutable.getIn donor
             [Immutable.KStr "media"; Immutable.KIdx 0; Immutable.KStr "url"]
             (VStr "");
  title ← Immutable.get donor (Immutable.KStr "title");
  description ← Immutable.get donor (Immutable.KStr "description");
  Ok (NElem "DonorCard"
        [ ("key", AVal key); ("id", AVal id); ("image", AVal image);
          ("title", AVal title); ("description", AVal description) ]
        []).

(** The frame of the page around the cards. *)
Definition page (cards : node) : node :=
  NElem "FrontContainerLayout"
    [ ("breadcrumbPath", AVal breadcrumbPath); ("title", str "Donors");
      ("subscribe", AVal (VBool true)) ]
    [ NElem "Row" [] [cards] ].

Definition render (this : props) : result node :=
  let donorListPage := Immutable.map_get this.(donors) "donorListPage" in
  cards ← React.map donorListPage (λ donor _, card donor);
  Ok (page cards).

End Donors.

(** ** The detail view: [PostDetail] *)

Module PostDetail.

(** The router's [match.params.id]: a path parameter, hence a string. *)
Record Params := { id : string }.
Record Match := { params : Params }.

(** [auth] and [blog] are Immutable maps from the selectors; the four
    bound action creators show up as [Call]s in traces. *)
Record props := {
  auth : gmap string value;
  blog : gmap string value;
  match_ : Match
}.

Definition breadcrumbPath (this : props) : result value :=
  let postDetail := Immutable.map_get this.(blog) "postDetail" in
  text ← (if truthy postDetail
          then Immutable.get postDetail (Immutable.KStr "title")
          else Ok (VStr ""));
  Ok (VArr [ VObj {[ "route" := VStr "/"; "text" := VStr "Home" ]};
             VObj {[ "route" := VStr "/blog"; "text" := VStr "Posts" ]};
             VObj {[ "text" := text ]} ]).

Definition getDetail (id : string) : list effect :=
  [ Call getPostDetail [VObj {[ "id" := VStr id ]}];
    Call getPostCommentList [VObj {[ "id" := VStr id ]}] ].

Definition componentWillMount (this : props) : list effect :=
  getDetail this.(match_).(params).(id).

Definition componentWillReceiveProps (this nextProps : props) : list effect :=
  if bool_decide (this.(match_).(params).(id) ≠ nextProps.(match_).(params).(id))
  then getDetail nextProps.(match_).(params).(id)
  else [].

Definition handlePostComment (this : props) (data : value) : list effect :=
  let id := this.(match_).(params).(id) in
  [ Call createPostComment [VObj {[ "id" := VStr id; "data" := data ]}] ].

(** The argument is the click event; all the handler does with it is
    [e.preventDefault()]. *)
Definition handleSignIn (this : props) : list effect :=
  [ PreventDefault; Call show [VStr "signinModal"] ].

(** What runs when React calls the instance method an element carries. *)
Definition invoke (method : string) (this : props) (arg : value)
    : option (list effect) :=
  if bool_decide (method = "handlePostComment")
  then Some (handlePostComment this arg)
  else if bool_decide (method = "handleSignIn")
  then Some (handleSignIn this)
  else None.

(** The sign-in prompt of the comments section. *)
Definition sign_in_link : node :=
  NElem "Link"
    [ ("to", str "/signin"); ("className", str "alert-link");
      ("onClick", AThis "handleSignIn") ]
    [ text "sign in" ].

Definition sign_in_prompt : node :=
  NElem "Alert" [ ("color", str "dark") ]
    [ text "Please "; sign_in_link; text " to leave comment" ].

Definition comment_form (user : value) : node :=
  NElem "CommentForm"
    [ ("onSubmit", AThis "handlePostComment"); ("user", AVal user) ] [].

(** The element types the gate of the comments section is made of. *)
Definition gate_type (ty : string) : Prop :=
  ty = "Alert" ∨ ty = "Link" ∨ ty = "CommentForm".

(** The arrow function given to [similarPosts.map]. *)
Definition similar_post (post : value) : result node :=
  pk ← member post "pk";
  Ok (NElem "PostItem" [ ("key", AVal pk); ("post", AVal post) ] []).

Definition spinner : node := NElem "Spinner" [] [].

(** The frame of the page around the three status branches. *)
Definition page (breadcrumbs : value) (children : list node) : node :=
  NElem "FrontContainerLayout"
    [ ("breadcrumbPath", AVal breadcrumbs); ("subscribe", AVal (VBool true)) ]
    children.

Definition not_found : node :=
  NElem "SectionTitle" [] [ NElem "center" [] [ text "Post not found" ] ].

Section Externals.

(** [moment(v).format(f)] as the moment library prints it at the time of
    a render.  What it prints is not a function of [v] and [f] alone:
    the library reads the clock when [v] is [undefined], and the time
    zone and its global locale always; two renders may therefore run
    with two different formatters. *)
Variable moment_format : value → string → string.

Variable immutable_toString : value → string.

(** Modelled from the spec: the request-status constants of
    [store/api/request], which is not part of the sources at hand; the
    spec has them as the three values of the RequestStatus enum, taken
    here as three string tags. *)
Variables API_PENDING API_SUCCESS API_FAIL : string.

(** The arrow function given to [comments.map]. *)
Definition comment_entry (comment index : value) : result node :=
  content ← member comment "content";
  created_at ← member comment "created_at";
  user ← member comment "user";
  full_name ← member user "full_name";
  Ok (NElem "div" [ ("className", str "mb-4"); ("key", AVal index) ]
        [ NElem "div" [ ("className", str "mb-3") ] [ NExpr content ];
          NElem "Row" []
            [ NElem "Col" [ ("xs", AVal (VNum 6)); ("className", str "mb-2") ]
                [ text (moment_format created_at "ll") ];
              NElem "Col"
                [ ("xs", AVal (VNum 6)); ("className", str "text-right mb-2") ]
                [ NExpr full_name ] ] ]).

(** The title of the comments section,
    [`Comments (${comments ? comments.length : 0})`]. *)
Definition comments_title (comments : value) : result string :=
  count ← (if truthy comments then member comments "length" else Ok (VNum 0));
  Ok ("Comments (" +:+ to_string immutable_toString count +:+ ")").

(** The first child of the comments section,
    [comments && !!comments.length && comments.map(...)]. *)
Definition comment_entries (comments : value) : result node :=
  if truthy comments
  then len ← member comments "length";
       if truthy len
       then React.map comments comment_entry
       else Ok nothing
  else Ok (NExpr comments).

(** Its second child, [user ? <CommentForm .../> : <Alert ...>]. *)
Definition comment_gate (user : value) : node :=
  if truthy user then comment_form user else sign_in_prompt.

Definition renderDetail (this : props) : result node :=
  let postDetail := Immutable.map_get this.(blog) "postDetail" in
  comments ← Immutable.toJS (Immutable.map_get this.(blog) "commentList");
  similarPosts ← Immutable.get postDetail (Immutable.KStr "similar_posts");
  post ← Immutable.toJS postDetail;
  let user := Immutable.map_get this.(auth) "currentUser" in
  title ← member post "title";
  src ← member post "featured_image";
  alt ← member post "title";
  html ← member post "content";
  heading ← comments_title comments;
  entries ← comment_entries comments;
  similar ← React.map similarPosts (λ post _, similar_post post);
  Ok (NElem "div" [ ("className", str "page-content") ]
        [ NElem "Section" [ ("title", AVal title) ]
            [ NElem "p" []
                [ NElem "img"
                    [ ("src", AVal src); ("alt", AVal alt);
                      ("className", str "w-100") ] [] ];
              NElem "div"
                [ ("className", str "my-5");
                  ("dangerouslySetInnerHTML", AVal (VObj {[ "__html" := html ]})) ]
                [] ];
          NElem "Section" [ ("title", str heading) ]
            [ entries; comment_gate user ];
          NElem "Section" [ ("title", str "Similar Posts") ]
            [ NElem "Row" [ ("className", str "mb-5") ] [ similar ] ] ]).

Definition render (this : props) : result node :=
  let postDetailStatus := Immutable.map_get this.(blog) "postDetailStatus" in
  breadcrumbs ← breadcrumbPath this;
  pending ← (if strict_eq postDetailStatus (VStr API_PENDING)
             then Ok spinner else Ok nothing);
  fail ← (if strict_eq postDetailStatus (VStr API_FAIL)
          then Ok not_found else Ok nothing);
  success ← (if strict_eq postDetailStatus (VStr API_SUCCESS)
             then renderDetail this else Ok nothing);
  Ok (page breadcrumbs [ pending; fail; success ]).

End Externals.

(** A stored comment the view can show: an Immutable map with an author. *)
Definition comment_ok (comment : value) : Prop :=
  ∃ m author,
    comment = IMap m ∧ m !! "user" = Some author ∧ nullish author = false.

(** A store ready for the SUCCESS branch: a detail entity with a list of
    similar posts, and a list of comments with their authors. *)
Definition detail_loaded (this : props) : Prop :=
  ∃ entity similar comments,
    Immutable.map_get this.(blog) "postDetail" = IMap entity
    ∧ entity !! "similar_posts" = Some (IList similar)
    ∧ Forall (λ post, nullish post = false) similar
    ∧ Immutable.map_get this.(blog) "commentList" = IList comments
    ∧ Forall comment_ok comments.

End PostDetail.

(** ** Sample stores *)

Module Examples.

Definition moment_format (date : value) (format : string) : string :=
  "Mar 4, 2018".

Definition immutable_toString (v : value) : string := "Map {}".

Definition API_PENDING : string := "API_PENDING".
Definition API_SUCCESS : string := "API_SUCCESS".
Definition API_FAIL : string := "API_FAIL".

Definition donor_plain : value :=
  IMap {[ "pk" := VNum 1; "title" := VStr "Ann";
          "description" := VStr "first donor" ]}.

Definition donor_pictured : value :=
  IMap {[ "pk" := VNum 2; "title" := VStr "Bob";
          "description" := VStr "second donor";
          "media" := IList [ IMap {[ "url" := VStr "/media/bob.png" ]} ] ]}.

Definition donors_fresh : Donors.props :=
  {| Donors.donors :=
       {[ "donorListPage" := IList []; "donorListPageLoaded" := VBool false ]} |}.

Definition donors_loaded : Donors.props :=
  {| Donors.donors :=
       {[ "donorListPage" := IList [ donor_plain; donor_pictured ];
          "donorListPageLoaded" := VBool true ]} |}.

Definition post : value :=
  IMap {[ "pk" := VNum 7; "title" := VStr "Hello";
          "featured_image" := VStr "/media/hello.png";
          "content" := VStr "<p>Hello</p>";
          "similar_posts" := IList [ IMap {[ "pk" := VNum 8 ]} ] ]}.

Definition comment : value :=
  IMap {[ "content" := VStr "Nice"; "created_at" := VStr "2018-03-04T10:00:00Z";
          "user" := IMap {[ "full_name" := VStr "Ann Lee" ]} ]}.

Definition reader : value := IMap {[ "full_name" := VStr "Cy Doe" ]}.

Definition at_route (id : string) : PostDetail.Match :=
  {| PostDetail.params := {| PostDetail.id := id |} |}.

(** Nothing fetched yet. *)
Definition pending : PostDetail.props :=
  {| PostDetail.auth := ∅;
     PostDetail.blog := {[ "postDetailStatus" := VStr API_PENDING ]};
     PostDetail.match_ := at_route "7" |}.

(** SUCCESS without the detail entity in the store. *)
Definition success_without_detail : PostDetail.props :=
  {| PostDetail.auth := ∅;
     PostDetail.blog :=
       {[ "postDetailStatus" := VStr API_SUCCESS; "commentList" := IList [] ]};
     PostDetail.match_ := at_route "7" |}.

(** A loaded post without comments, read by an anonymous visitor. *)
Definition anonymous : PostDetail.props :=
  {| PostDetail.auth := ∅;
     PostDetail.blog :=
       {[ "postDetailStatus" := VStr API_SUCCESS; "postDetail" := post;
          "commentList" := IList [] ]};
     PostDetail.match_ := at_route "7" |}.

(** A loaded post with one comment, read by a signed-in user. *)
Definition signed_in : PostDetail.props :=
  {| PostDetail.auth := {[ "currentUser" := reader ]};
     PostDetail.blog :=
       {[ "postDetailStatus" := VStr API_SUCCESS; "postDetail" := post;
          "commentList" := IList [ comment ] ]};
     PostDetail.match_ := at_route "7" |}.

(** The same four slots as [signed_in], with more in the store and
    another route. *)
Definition signed_in_elsewhere : PostDetail.props :=
  {| PostDetail.auth := {[ "currentUser" := reader; "token" := VStr "t0k" ]};
     PostDetail.blog :=
       {[ "postDetailStatus" := VStr API_SUCCESS; "postDetail" := post;
          "commentList" := IList [ comment ];
          "postListStatus" := VStr API_PENDING ]};
     PostDetail.match_ := at_route "8" |}.

(** The fields of [post], of [comment] and of its author. *)
Definition post_fields : gmap string value :=
  {[ "pk" := VNum 7; "title" := VStr "Hello";
     "featured_image" := VStr "/media/hello.png";
     "content" := VStr "<p>Hello</p>";
     "similar_posts" := IList [ IMap {[ "pk" := VNum 8 ]} ] ]}.

Definition author_fields : gmap string value :=
  {[ "full_name" := VStr "Ann Lee" ]}.

Definition comment_fields : gmap string value :=
  {[ "content" := VStr "Nice"; "created_at" := VStr "2018-03-04T10:00:00Z";
     "user" := IMap author_fields ]}.

Definition donor_plain_fields : gmap string value :=
  {[ "pk" := VNum 1; "title" := VStr "Ann";
     "description" := VStr "first donor" ]}.

Definition donor_pictured_fields : gmap string value :=
  {[ "pk" := VNum 2; "title" := VStr "Bob";
     "description" := VStr "second donor";
     "media" := IList [ IMap {[ "url" := VStr "/media/bob.png" ]} ] ]}.

(** A store in which nothing was ever fetched. *)
Definition donors_untouched : Donors.props := {| Donors.donors := ∅ |}.

Definition untouched : PostDetail.props :=
  {| PostDetail.auth := ∅; PostDetail.blog := ∅;
     PostDetail.match_ := at_route "7" |}.

(** A loaded post with a comment whose author is gone. *)
Definition orphan_comment : value :=
  IMap {[ "content" := VStr "Hm"; "created_at" := VStr "2018-03-05T09:00:00Z" ]}.

Definition with_orphan_comment : PostDetail.props :=
  {| PostDetail.auth := ∅;
     PostDetail.blog :=
       {[ "postDetailStatus" := VStr API_SUCCESS; "postDetail" := post;
          "commentList" := IList [ comment; orphan_comment ] ]};
     PostDetail.match_ := at_route "7" |}.

(** A loaded post whose title is not its own but that of the map under
    its ["__proto__"] entry. *)
Definition with_inherited_title : PostDetail.props :=
  {| PostDetail.auth := ∅;
     PostDetail.blog :=
       {[ "postDetailStatus" := VStr API_SUCCESS;
          "postDetail" :=
            IMap {[ "__proto__" := IMap {[ "title" := VStr "Inherited";
                                           "content" := VStr "<p>Hello</p>" ]};
                    "similar_posts" := IList [] ]};
          "commentList" := IList [] ]};
     PostDetail.match_ := at_route "7" |}.





End Examples.

(** ** The life of a mounted detail view *)

Module Session.

(** React mounts the component with its first props and then, each time
    new props arrive, calls [componentWillReceiveProps(nextProps)] while
    [this.props] still holds the previous ones. *)
Fixpoint updates (this : PostDetail.props) (later : list PostDetail.props)
    : list effect :=
  match later with
  | [] => []
  | nextProps :: later' =>
      PostDetail.componentWillReceiveProps this nextProps
        ++ updates nextProps later'
  end.

Definition run (first : PostDetail.props) (later : list PostDetail.props)
    : list effect :=
  PostDetail.componentWillMount first ++ updates first later.

Definition route (this : PostDetail.props) : string :=
  PostDetail.id (PostDetail.params (PostDetail.match_ this)).

(** The identifiers a route goes through after [current], an identifier
    that repeats its predecessor counting once. *)
Fixpoint changes (current : string) (ids : list string) : list string :=
  match ids with
  | [] => []
  | next :: ids' =>
      if bool_decide (current ≠ next)
      then next :: changes next ids'
      else changes next ids'
  end.

End Session.

(** ** What [connect] binds *)

Module Connect.

(** The [actions] object each view hands to [connect]: the creators that
    exist as functions in its props. *)
Definition donors_actions : list creator := [ getDonorListPage ].

Definition post_detail_actions : list creator :=
  [ createPostComment; getPostDetail; getPostCommentList; show ].

(** The creators a trace calls. *)
Definition called (tr : list effect) : list creator :=
  omap (λ e, match e with Call f _ => Some f | PreventDefault => None end) tr.

End Connect.

(** ** What the views are expected to show *)

Module Expected.

(** The image of a donor: the [url] of its first media entry when every
    step of that path is there, the empty string otherwise. *)
Definition image (donor : gmap string value) : value :=
  default (VStr "")
    (media ← donor !! "media";
     first ← Immutable.lookup_key media (Immutable.KIdx 0);
     Immutable.lookup_key first (Immutable.KStr "url")).

Definition donor_card (donor : gmap string value) : node :=
  NElem "DonorCard"
    [ ("key", AVal (Immutable.map_get donor "pk"));
      ("id", AVal (Immutable.map_get donor "pk"));
      ("image", AVal (image donor));
      ("title", AVal (Immutable.map_get donor "title"));
      ("description", AVal (Immutable.map_get donor "description")) ]
    [].

(** A donor list the listing view can go through: a collection with a
    [map] method, every item of which is an Immutable collection. *)
Definition donor_list (slot : value) : Prop :=
  (∃ items, (slot = IList items ∨ slot = VArr items)
            ∧ Forall (λ donor, Immutable.is_collection donor = true) items)
  ∨ (∃ entries, slot = IMap entries
                ∧ map_Forall (λ _ donor, Immutable.is_collection donor = true)
                    entries).

(** The entry of the comment at position [index]: its content, its
    formatted creation date and its author's name, read from the plain
    copy [toJS] makes of the stored comment. *)
Definition comment_entry (moment_format : value → string → string)
    (index : nat) (comment author : gmap string value) : node :=
  NElem "div" [ ("className", str "mb-4"); ("key", AVal (VNum (Z.of_nat index))) ]
    [ NElem "div" [ ("className", str "mb-3") ]
        [ NExpr (Immutable.toJS_deep (Immutable.map_get comment "content")) ];
      NElem "Row" []
        [ NElem "Col" [ ("xs", AVal (VNum 6)); ("className", str "mb-2") ]
            [ text (moment_format
                      (Immutable.toJS_deep (Immutable.map_get comment "created_at"))
                      "ll") ];
          NElem "Col"
            [ ("xs", AVal (VNum 6)); ("className", str "text-right mb-2") ]
            [ NExpr (Immutable.toJS_deep (Immutable.map_get author "full_name")) ] ] ].

(** The first section of a loaded post: title, image and content, each
    read from the plain copy of the entity. *)
Definition post_section (entity : gmap string value) : node :=
  NElem "Section"
    [ ("title", AVal (Immutable.toJS_deep (Immutable.map_get entity "title"))) ]
    [ NElem "p" []
        [ NElem "img"
            [ ("src", AVal (Immutable.toJS_deep
                              (Immutable.map_get entity "featured_image")));
              ("alt", AVal (Immutable.toJS_deep (Immutable.map_get entity "title")));
              ("className", str "w-100") ] [] ];
      NElem "div"
        [ ("className", str "my-5");
          ("dangerouslySetInnerHTML",
           AVal (VObj {[ "__html" :=
             Immutable.toJS_deep (Immutable.map_get entity "content") ]})) ]
        [] ].

End Expected.

(** * Properties *)

(** ** Lifecycle methods and handlers *)

Section Dispatch.

Implicit Types (this nextProps : PostDetail.props) (data : value).

Local Abbreviation route_id p :=
  (PostDetail.id (PostDetail.params (PostDetail.match_ p))).

(** C3. Mounting the listing view with the page-loaded flag false calls
    the list-page fetch once, with no argument, and does nothing else;
    with the flag true it calls nothing. *)
Theorem donors_mount_fetches_unless_loaded (this : Donors.props) (loaded : bool) :
  Immutable.map_get (Donors.donors this) "donorListPageLoaded" = VBool loaded →
  Donors.componentWillMount this
    = (if loaded then [] else [Call getDonorListPage []])
  ∧ calls getDonorListPage (Donors.componentWillMount this)
    = (if loaded then 0 else 1).
Proof.
  intros Hflag. unfold Donors.componentWillMount. rewrite Hflag.
  by destruct loaded.
Qed.

(** A store that never set the flag counts as not loaded. *)
Lemma donors_mount_fetches_when_flag_absent (this : Donors.props) :
  Donors.donors this !! "donorListPageLoaded" = None →
  Donors.componentWillMount this = [Call getDonorListPage []].
Proof.
  intros Hflag. unfold Donors.componentWillMount, Immutable.map_get.
  by rewrite Hflag.
Qed.

(** Mounting the detail view fetches the detail and the comment list of
    the current route identifier. *)
Lemma post_detail_mount_fetches this :
  PostDetail.componentWillMount this
    = [ Call getPostDetail [VObj {[ "id" := VStr (route_id this) ]}];
        Call getPostCommentList [VObj {[ "id" := VStr (route_id this) ]}] ].
Proof. reflexivity. Qed.

(** C2. On new props, a changed route identifier calls the detail fetch
    once and the comment-list fetch once, both with the new identifier,
    and nothing else; an unchanged identifier calls nothing. *)
Theorem post_detail_refetches_on_id_change this nextProps :
  (route_id this ≠ route_id nextProps →
     PostDetail.componentWillReceiveProps this nextProps
       = [ Call getPostDetail [VObj {[ "id" := VStr (route_id nextProps) ]}];
           Call getPostCommentList [VObj {[ "id" := VStr (route_id nextProps) ]}] ]
     ∧ calls getPostDetail (PostDetail.componentWillReceiveProps this nextProps) = 1
     ∧ calls getPostCommentList (PostDetail.componentWillReceiveProps this nextProps) = 1)
  ∧ (route_id this = route_id nextProps →
     PostDetail.componentWillReceiveProps this nextProps = []).
Proof.
  unfold PostDetail.componentWillReceiveProps. split; intros Hid.
  - by rewrite bool_decide_eq_true_2.
  - by rewrite bool_decide_eq_false_2 by (intros Hne; by apply Hne).
Qed.

(** C5. Submitting the comment form with payload [data] makes exactly
    one call, of the create-comment creator, with one argument: an
    object whose fields are exactly [id], the current route identifier,
    and [data], the payload.  The form's [onSubmit] is that handler. *)
Theorem post_detail_submit_creates_comment this data :
  ∃ fields,
    PostDetail.handlePostComment this data
      = [ Call createPostComment [VObj fields] ]
    ∧ fields !! "id" = Some (VStr (route_id this))
    ∧ fields !! "data" = Some data
    ∧ dom fields = ({[ "id"; "data" ]} : gset string)
    ∧ ∀ user, ∃ method,
        handler "onSubmit" (PostDetail.comment_form user) = Some (AThis method)
        ∧ PostDetail.invoke method this data
          = Some (PostDetail.handlePostComment this data).
Proof.
  eexists. split; [reflexivity|].
  split; [by simplify_map_eq|]. split; [by simplify_map_eq|].
  split; [set_solver|].
  intros user. by exists "handlePostComment".
Qed.

End Dispatch.

(** ** The exception monad and the [map] method *)

Lemma bind_Ok {A B} (r : result A) (k : A → result B) (b : B) :
  r ≫= k = Ok b → ∃ a, r = Ok a ∧ k a = Ok b.
Proof. destruct r as [a|e]; [by exists a | done]. Qed.

Lemma fmap_Ok {A B} (f : A → B) (r : result A) (b : B) :
  f <$> r = Ok b → ∃ a, r = Ok a ∧ b = f a.
Proof. destruct r as [a|e]; [|done]. intros [= <-]. by exists a. Qed.

Lemma if_Ok_elem {A} (b : bool) (x y a : A) :
  (if b then Ok x else Ok y) = Ok a → a ∈ [x; y].
Proof. destruct b; intros [= <-]; [left | right; left]. Qed.

Lemma result_cases {A} (r : result A) : succeeds r ∨ r = Throw TypeError.
Proof. destruct r as [a|[]]; [left; by exists a | by right]. Qed.

(** Splits a successful sequence of binds into its successful steps. *)
Ltac ok_steps H :=
  repeat match type of H with
  | _ ≫= _ = Ok _ =>
      let a := fresh "a" in let Ha := fresh "Hstep" in
      apply bind_Ok in H as (a & Ha & H)
  end.

Lemma map_from_length cb i l ys :
  React.map_from cb i l = Ok ys → length ys = length l.
Proof.
  revert i ys. induction l as [|x l IH]; intros i ys H; simpl in H.
  - by injection H as <-.
  - ok_steps H. injection H as <-. simpl. f_equal. eauto.
Qed.

Lemma map_from_lookup cb i l ys j x :
  React.map_from cb i l = Ok ys → l !! j = Some x →
  ∃ y, ys !! j = Some y ∧ cb x (VNum (Z.of_nat (i + j))) = Ok y.
Proof.
  revert i ys j. induction l as [|x' l IH]; intros i ys j H Hj; [done|].
  simpl in H. ok_steps H. injection H as <-.
  destruct j as [|j]; simpl in Hj.
  - injection Hj as ->. eexists. split; [done|]. by rewrite Nat.add_0_r.
  - destruct (IH _ _ _ Hstep0 Hj) as (y & Hy & Hcb).
    exists y. split; [done|]. by rewrite Nat.add_succ_r.
Qed.

Lemma map_from_elem cb i l ys y :
  React.map_from cb i l = Ok ys → y ∈ ys → ∃ x j, x ∈ l ∧ cb x j = Ok y.
Proof.
  revert i ys. induction l as [|x l IH]; intros i ys H Hy; simpl in H.
  - injection H as <-. by apply elem_of_nil in Hy.
  - ok_steps H. injection H as <-. apply elem_of_cons in Hy as [->|Hy].
    + exists x, (VNum (Z.of_nat i)). split; [left|done].
    + destruct (IH _ _ Hstep0 Hy) as (x' & j & Hx' & Hcb).
      exists x', j. split; [by right|done].
Qed.

Lemma map_from_succeeds cb i l :
  Forall (λ x, ∀ j, succeeds (cb x j)) l → succeeds (React.map_from cb i l).
Proof.
  intros Hall. revert i. induction Hall as [|x l Hx _ IH]; intros i.
  - by eexists.
  - destruct (Hx (VNum (Z.of_nat i))) as [y Hy], (IH (S i)) as [ys Hys].
    exists (y :: ys). simpl. by rewrite Hy, Hys.
Qed.

Lemma mapM_result_elem {A B} (f : A → result B) l ys y :
  mapM f l = Ok ys → y ∈ ys → ∃ x, x ∈ l ∧ f x = Ok y.
Proof.
  revert ys. induction l as [|x l IH]; intros ys H Hy; simpl in H.
  - injection H as <-. by apply elem_of_nil in Hy.
  - ok_steps H. injection H as <-. apply elem_of_cons in Hy as [->|Hy].
    + exists x. split; [left|done].
    + destruct (IH _ Hstep0 Hy) as (x' & Hx' & Hf).
      exists x'. split; [by right|done].
Qed.

(** ** Searching element trees *)

Lemma flat_map_select_nil ty (l : list node) :
  (∀ y, y ∈ l → select ty y = []) → flat_map (select ty) l = [].
Proof.
  induction l as [|y l IH]; intros Hall; simpl; [done|].
  rewrite Hall by left. simpl. apply IH. intros y' Hy'. apply Hall. by right.
Qed.

Lemma select_keyed_nil ty (m : gmap string node) :
  (∀ k c, m !! k = Some c → select ty c = []) → select ty (NKeyed m) = [].
Proof.
  simpl.
  apply (map_fold_weak_ind
    (λ r (m' : gmap string node),
       (∀ k c, m' !! k = Some c → select ty c = []) → r = [])); [done|].
  intros i x m' r Hi IH Hall.
  rewrite (Hall i x) by apply lookup_insert_eq. simpl. apply IH.
  intros k c Hk. apply (Hall k). rewrite lookup_insert_ne; [done|].
  intros ->. by rewrite Hi in Hk.
Qed.

(** A [map] whose callback never builds an element of type [ty] yields
    a collection without one. *)
Lemma select_map_nil ty c cb n :
  React.map c cb = Ok n →
  (∀ x i y, cb x i = Ok y → select ty y = []) →
  select ty n = [].
Proof.
  intros Hmap Hcb. destruct c; simpl in Hmap; try done.
  - apply fmap_Ok in Hmap as (ys & Hys & ->). simpl.
    apply flat_map_select_nil. intros y Hy.
    destruct (map_from_elem _ _ _ _ _ Hys Hy) as (x & j & _ & Hx). eauto.
  - apply fmap_Ok in Hmap as (es & Hes & ->).
    apply select_keyed_nil. intros k y Hk.
    apply elem_of_list_to_map_2 in Hk.
    destruct (mapM_result_elem _ _ _ _ Hes Hk) as ([k' x] & _ & Hx).
    simpl in Hx. apply fmap_Ok in Hx as (y' & Hy' & [= -> ->]). eauto.
  - apply fmap_Ok in Hmap as (ys & Hys & ->). simpl.
    apply flat_map_select_nil. intros y Hy.
    destruct (map_from_elem _ _ _ _ _ Hys Hy) as (x & j & _ & Hx). eauto.
Qed.

(** ** Immutable data *)

Lemma immutable_data_lookup c k v :
  Immutable.immutable_data c = true → Immutable.lookup_key c k = Some v →
  Immutable.immutable_data v = true.
Proof.
  destruct c, k; simpl; try done.
  - revert v s. 
    apply (map_fold_weak_ind
      (λ r (m : gmap string value),
         ∀ v s, r = true → m !! s = Some v → Immutable.immutable_data v = true)).
    + intros v s _ Hs. by rewrite lookup_empty in Hs.
    + intros i x m r Hi IH v s Hr Hs.
      apply andb_true_iff in Hr as [Hx Hr].
      destruct (decide (i = s)) as [->|Hne].
      * rewrite lookup_insert_eq in Hs. by injection Hs as <-.
      * rewrite lookup_insert_ne in Hs by done. eauto.
  - intros Hall Hi. rewrite forallb_forall in Hall.
    apply Hall, list_elem_of_In. by eapply list_elem_of_lookup_2.
Qed.

Lemma getIn_from_immutable path nested notSetValue :
  Immutable.immutable_data nested = true →
  succeeds (Immutable.getIn_from nested path notSetValue).
Proof.
  revert nested. induction path as [|k rest IH]; intros nested Hdata; simpl.
  - by eexists.
  - destruct nested; try done; try by eexists.
    + destruct (Immutable.lookup_key _ k) as [v|] eqn:Hk; [|by eexists].
      eapply IH, immutable_data_lookup; done.
    + destruct (Immutable.lookup_key _ k) as [v|] eqn:Hk; [|by eexists].
      eapply IH, immutable_data_lookup; done.
Qed.

(** ** The listing view renders one card per item *)

(** The card of an item that is an Immutable map: every field is read
    with a total [get], and only the image goes through [getIn]. *)
Lemma donors_card_of_map (m : gmap string value) :
  Donors.card (IMap m) =
    image ← Immutable.getIn_from (IMap m)
      [Immutable.KStr "media"; Immutable.KIdx 0; Immutable.KStr "url"] (VStr "");
    Ok (NElem "DonorCard"
          [ ("key", AVal (Immutable.map_get m "pk"));
            ("id", AVal (Immutable.map_get m "pk"));
            ("image", AVal image);
            ("title", AVal (Immutable.map_get m "title"));
            ("description", AVal (Immutable.map_get m "description")) ]
          []).
Proof. reflexivity. Qed.

(** With no media reference (none stored, or [null]), the key path stops
    at its first step and [getIn] answers with its default. *)
Lemma donors_image_default (m : gmap string value) :
  nullish (Immutable.map_get m "media") = true →
  Immutable.getIn_from (IMap m)
    [Immutable.KStr "media"; Immutable.KIdx 0; Immutable.KStr "url"] (VStr "")
  = Ok (VStr "").
Proof.
  unfold Immutable.map_get. simpl.
  destruct (m !! "media") as [media|]; [|done].
  by destruct media.
Qed.

(** C7. When the store's list holds Immutable maps (of Immutable data),
    the listing view renders, with one card per item in store order; an
    item without a media reference gets the card whose image source is
    the empty string and whose id, title and description are the item's
    own. *)
Theorem donors_render_defaults_missing_image
    (this : Donors.props) (items : list value) :
  Immutable.map_get (Donors.donors this) "donorListPage" = IList items →
  Forall (λ d, (∃ m, d = IMap m) ∧ Immutable.immutable_data d = true) items →
  ∃ cards,
    Donors.render this = Ok (Donors.page (NSeq cards))
    ∧ length cards = length items
    ∧ ∀ i m,
        items !! i = Some (IMap m) →
        nullish (Immutable.map_get m "media") = true →
        cards !! i = Some (NElem "DonorCard"
          [ ("key", AVal (Immutable.map_get m "pk"));
            ("id", AVal (Immutable.map_get m "pk"));
            ("image", AVal (VStr ""));
            ("title", AVal (Immutable.map_get m "title"));
            ("description", AVal (Immutable.map_get m "description")) ]
          []).
Proof.
  intros Hlist Hitems. unfold Donors.render. rewrite Hlist. simpl.
  destruct (map_from_succeeds (λ donor _, Donors.card donor) 0 items)
    as [cards Hcards].
  { eapply Forall_impl; [exact Hitems|]. intros d [[m ->] Hdata] _.
    rewrite donors_card_of_map.
    destruct (getIn_from_immutable
      [Immutable.KStr "media"; Immutable.KIdx 0; Immutable.KStr "url"]
      (IMap m) (VStr "") Hdata) as [image ->].
    by eexists. }
  exists cards. rewrite Hcards. split; [done|].
  split; [by eapply map_from_length|].
  intros i m Hi Hmedia.
  destruct (map_from_lookup _ _ _ _ _ _ Hcards Hi) as (y & Hy & Hcard).
  rewrite Hy. f_equal.
  rewrite donors_card_of_map, donors_image_default in Hcard by done.
  by injection Hcard as <-.
Qed.

(** ** The detail view *)

Section Rendering.

Context (moment_format : value → string → string).
Context (immutable_toString : value → string).
Context (API_PENDING API_SUCCESS API_FAIL : string).

Implicit Types (this : PostDetail.props) (out detail : node).

Local Abbreviation render :=
  (PostDetail.render moment_format immutable_toString
     API_PENDING API_SUCCESS API_FAIL).
Local Abbreviation renderDetail :=
  (PostDetail.renderDetail moment_format immutable_toString).

(** The four store slots the view reads. *)
Local Abbreviation status this :=
  (Immutable.map_get (PostDetail.blog this) "postDetailStatus").
Local Abbreviation postDetail this :=
  (Immutable.map_get (PostDetail.blog this) "postDetail").
Local Abbreviation commentList this :=
  (Immutable.map_get (PostDetail.blog this) "commentList").
Local Abbreviation currentUser this :=
  (Immutable.map_get (PostDetail.auth this) "currentUser").

(** The similar-posts collection nested in the detail entity. *)
Local Abbreviation similarPosts this :=
  (default VUndef
     (Immutable.lookup_key (postDetail this) (Immutable.KStr "similar_posts"))).

(** C9. Whenever the detail slot holds nothing or an Immutable
    collection, the breadcrumb computation returns the three entries
    Home, Posts and the detail's title, the title being the empty string
    when there is no detail. *)
Theorem post_detail_breadcrumb_total this :
  (truthy (postDetail this) = true →
   Immutable.is_collection (postDetail this) = true) →
  ∃ title,
    PostDetail.breadcrumbPath this
      = Ok (VArr [ VObj {[ "route" := VStr "/"; "text" := VStr "Home" ]};
                   VObj {[ "route" := VStr "/blog"; "text" := VStr "Posts" ]};
                   VObj {[ "text" := title ]} ])
    ∧ (nullish (postDetail this) = true → title = VStr "")
    ∧ (∀ entity, postDetail this = IMap entity →
         title = Immutable.map_get entity "title").
Proof.
  intros Htyped. unfold PostDetail.breadcrumbPath. simpl.
  destruct (truthy (postDetail this)) eqn:Htruthy.
  - unfold Immutable.get. rewrite Htyped by done. simpl.
    eexists. split; [done|]. split.
    + intros Hnull. by destruct (postDetail this).
    + by intros entity ->.
  - eexists. split; [done|]. split; [done|].
    intros entity Hentity. by rewrite Hentity in Htruthy.
Qed.

(** The breadcrumb computation fails exactly on a truthy detail slot that
    is not a collection. *)
Lemma post_detail_breadcrumb_succeeds_iff this :
  succeeds (PostDetail.breadcrumbPath this) ↔
  (truthy (postDetail this) = true →
   Immutable.is_collection (postDetail this) = true).
Proof.
  split.
  - intros [crumbs Hcrumbs] Htruthy. unfold PostDetail.breadcrumbPath in Hcrumbs.
    simpl in Hcrumbs. rewrite Htruthy in Hcrumbs. unfold Immutable.get in Hcrumbs.
    by destruct (Immutable.is_collection _).
  - intros Htyped. unfold PostDetail.breadcrumbPath. simpl.
    destruct (truthy (postDetail this)); [|by eexists].
    unfold Immutable.get. rewrite Htyped by done. by eexists.
Qed.

Lemma strict_eq_str_refl (s : string) : strict_eq (VStr s) (VStr s) = true.
Proof. simpl. by apply bool_decide_eq_true_2. Qed.



(** X9. With a status that is none of the three constants (a store in
    which the status was never set, say) the page is the bare layout:
    no spinner, no not-found message and no detail. *)
Lemma post_detail_render_other_status this (crumbs : value) :
  PostDetail.breadcrumbPath this = Ok crumbs →
  status this ∉ [ VStr API_PENDING; VStr API_FAIL; VStr API_SUCCESS ] →
  render this = Ok (PostDetail.page crumbs [ nothing; nothing; nothing ]).
Proof.
  intros Hcrumbs Hout. unfold PostDetail.render. rewrite Hcrumbs. simpl.
  assert (∀ c, c ∈ [API_PENDING; API_FAIL; API_SUCCESS] →
            strict_eq (status this) (VStr c) = false) as Hne.
  { intros c Hc. destruct (status this) eqn:Hs; try done. simpl.
    apply bool_decide_eq_false_2. intros ->. apply Hout.
    repeat (apply elem_of_cons in Hc as [->|Hc]);
      [..|by apply elem_of_nil in Hc]; set_solver. }
  rewrite !Hne by set_solver. done.
Qed.


(** *** The SUCCESS branch *)

Lemma comment_entry_no_gate ty comment index entry :
  PostDetail.gate_type ty →
  PostDetail.comment_entry moment_format comment index = Ok entry →
  select ty entry = [].
Proof.
  intros Hty Hentry. unfold PostDetail.comment_entry in Hentry.
  ok_steps Hentry. injection Hentry as <-.
  by destruct Hty as [->|[->| ->]].
Qed.

Lemma similar_post_no_gate ty post item :
  PostDetail.gate_type ty → PostDetail.similar_post post = Ok item → select ty item = [].
Proof.
  intros Hty Hitem. unfold PostDetail.similar_post in Hitem.
  ok_steps Hitem. injection Hitem as <-.
  by destruct Hty as [->|[->| ->]].
Qed.

Lemma comment_entries_no_gate ty comments entries :
  PostDetail.gate_type ty →
  PostDetail.comment_entries moment_format comments = Ok entries →
  select ty entries = [].
Proof.
  intros Hty Hentries. unfold PostDetail.comment_entries in Hentries.
  destruct (truthy comments); [|by injection Hentries as <-].
  ok_steps Hentries. destruct (truthy a); [|by injection Hentries as <-].
  eapply select_map_nil; [exact Hentries|].
  intros x i y. by apply comment_entry_no_gate.
Qed.

(** What a successful [renderDetail] went through and what it built:
    three sections, the middle one holding the comment entries followed
    by the gate, and no gate element anywhere else. *)
Lemma renderDetail_Ok this detail :
  renderDetail this = Ok detail →
  ∃ comments heading entries first third,
    Immutable.toJS (commentList this) = Ok comments
    ∧ Immutable.is_collection (postDetail this) = true
    ∧ succeeds (React.map (similarPosts this)
                  (λ post _, PostDetail.similar_post post))
    ∧ PostDetail.comments_title immutable_toString comments = Ok heading
    ∧ PostDetail.comment_entries moment_format comments = Ok entries
    ∧ detail = NElem "div" [ ("className", str "page-content") ]
        [ first;
          NElem "Section" [ ("title", str heading) ]
            [ entries; PostDetail.comment_gate (currentUser this) ];
          third ]
    ∧ ∀ ty, PostDetail.gate_type ty →
        select ty first = [] ∧ select ty entries = [] ∧ select ty third = [].
Proof.
  intros Hdetail. unfold PostDetail.renderDetail in Hdetail. simpl in Hdetail.
  ok_steps Hdetail. injection Hdetail as <-.
  rename a into comments, a0 into sp, a6 into heading, a7 into entries,
    a8 into similar.
  unfold Immutable.get in Hstep0.
  destruct (Immutable.is_collection (postDetail this)) eqn:Hcoll; [|done].
  injection Hstep0 as <-.
  exists comments, heading, entries. do 2 eexists.
  split; [done|]. split; [done|]. split; [by eexists|].
  split; [done|]. split; [done|]. split; [reflexivity|].
  intros ty Hty. split; [|split].
  - by destruct Hty as [->|[->| ->]].
  - by eapply comment_entries_no_gate.
  - assert (select ty similar = []) as Hsimilar.
    { eapply select_map_nil; [exact Hstep8|].
      intros x i y. by apply similar_post_no_gate. }
    simpl. rewrite Hsimilar.
    by destruct Hty as [->|[->| ->]].
Qed.

(** A page rendered in the SUCCESS state holds a rendered detail. *)
Lemma render_success_Ok this out :
  status this = VStr API_SUCCESS →
  render this = Ok out →
  ∃ crumbs pending fail detail,
    renderDetail this = Ok detail
    ∧ out = PostDetail.page crumbs [ pending; fail; detail ]
    ∧ pending ∈ [ PostDetail.spinner; nothing ]
    ∧ fail ∈ [ PostDetail.not_found; nothing ].
Proof.
  intros Hstatus Hout. unfold PostDetail.render in Hout. simpl in Hout.
  rewrite Hstatus, strict_eq_str_refl in Hout.
  ok_steps Hout. injection Hout as <-.
  exists a, a0, a1, a2. split; [done|]. split; [done|]. split.
  - eapply if_Ok_elem, Hstep0.
  - eapply if_Ok_elem, Hstep1.
Qed.

Lemma nullish_not_collection (v : value) :
  Immutable.is_collection v = true → nullish v = false.
Proof. by destruct v. Qed.

Lemma nullish_falsy (v : value) : nullish v = true → truthy v = false.
Proof. by destruct v. Qed.

Lemma map_nullish_throws (c : value) cb :
  nullish c = true → React.map c cb = Throw TypeError.
Proof. by destruct c. Qed.

(** [renderDetail] gets through only when the detail entity, the comment
    list and the entity's similar posts are all there. *)
Lemma renderDetail_needs_data this :
  succeeds (renderDetail this) →
  nullish (postDetail this) = false
  ∧ nullish (commentList this) = false
  ∧ nullish (similarPosts this) = false.
Proof.
  intros [detail Hdetail].
  apply renderDetail_Ok in Hdetail
    as (comments & _ & _ & _ & _ & Hcomments & Hentity & [similar Hsimilar] & _).
  split; [by apply nullish_not_collection|]. split.
  - apply nullish_not_collection. unfold Immutable.toJS in Hcomments.
    by destruct (Immutable.is_collection (commentList this)).
  - destruct (nullish (similarPosts this)) eqn:Hnull; [|done].
    by rewrite map_nullish_throws in Hsimilar.
Qed.

(** C10. In the SUCCESS state the render reads the detail entity, its
    similar posts and the comment list without a default: if any of the
    three is missing the render throws, so a render that returns has
    found all three. *)
Theorem post_detail_success_needs_data this :
  status this = VStr API_SUCCESS →
  (nullish (postDetail this) = true
   ∨ nullish (commentList this) = true
   ∨ nullish (similarPosts this) = true →
     renderDetail this = Throw TypeError ∧ render this = Throw TypeError)
  ∧ (succeeds (render this) →
     nullish (postDetail this) = false
     ∧ nullish (commentList this) = false
     ∧ nullish (similarPosts this) = false).
Proof.
  intros Hstatus.
  assert (succeeds (render this) → succeeds (renderDetail this)) as Hpage.
  { intros [out Hout].
    apply render_success_Ok in Hout as (_ & _ & _ & detail & Hdetail & _);
      [by exists detail | done]. }
  split.
  - intros Hmissing.
    assert (¬ succeeds (renderDetail this)) as Hfails.
    { intros (Hentity & Hcomments & Hsimilar)%renderDetail_needs_data.
      destruct Hmissing as [?|[?|?]]; congruence. }
    split.
    + by destruct (result_cases (renderDetail this)).
    + destruct (result_cases (render this)) as [Hok|]; [|done].
      by apply Hpage in Hok.
  - intros Hok. by apply renderDetail_needs_data, Hpage.
Qed.

(** Reading a data field of anything but [undefined] and [null] returns. *)
Lemma member_succeeds (o : value) (k : string) :
  nullish o = false → succeeds (member o k).
Proof. destruct o; try done; by eexists. Qed.

Lemma toJS_deep_nullish (v : value) :
  nullish (Immutable.toJS_deep v) = nullish v.
Proof.
  destruct v; try done. simpl. unfold assign_all.
  destruct (_ !! "__proto__") as [proto|]; [|done].
  by destruct (is_object proto || nullish proto).
Qed.

(** An own entry of a map is an own field of its plain copy. *)
Lemma member_toJS_own (m : gmap string value) (k : string) (v : value) :
  k ≠ "__proto__" → m !! k = Some v →
  member (Immutable.toJS_deep (IMap m)) k = Ok (Immutable.toJS_deep v).
Proof.
  intros Hk Hv. simpl. unfold assign_all.
  destruct (_ !! "__proto__") as [proto|] eqn:Hproto.
  - destruct (is_object proto || nullish proto); simpl;
      by rewrite lookup_delete_ne, lookup_fmap, Hv.
  - simpl. by rewrite lookup_fmap, Hv.
Qed.

(** On a store that is ready for it, the SUCCESS branch renders. *)
Lemma comment_entry_succeeds (comment index : value) :
  PostDetail.comment_ok comment →
  succeeds (PostDetail.comment_entry moment_format
              (Immutable.toJS_deep comment) index).
Proof.
  intros (m & author & -> & Hauthor & Hpresent).
  assert (nullish (Immutable.toJS_deep (IMap m)) = false) as Hcomment.
  { by rewrite toJS_deep_nullish. }
  destruct (member_succeeds _ "content" Hcomment) as [content Hcontent].
  destruct (member_succeeds _ "created_at" Hcomment) as [created Hcreated].
  destruct (member_succeeds (Immutable.toJS_deep author) "full_name")
    as [name Hname].
  { by rewrite toJS_deep_nullish. }
  unfold PostDetail.comment_entry.
  rewrite Hcontent, Hcreated, (member_toJS_own m "user" author) by done.
  cbn [mbind result_bind]. rewrite Hname. by eexists.
Qed.

Lemma render_success_total this :
  status this = VStr API_SUCCESS →
  PostDetail.detail_loaded this →
  succeeds (render this).
Proof.
  intros Hstatus (entity & similar & comments
                  & Hentity & Hsimilar & Hposts & Hlist & Hcomments).
  destruct (map_from_succeeds (λ post _, PostDetail.similar_post post) 0 similar)
    as [items Hitems].
  { eapply Forall_impl; [exact Hposts|]. intros post Hpost _.
    unfold PostDetail.similar_post.
    destruct (member_succeeds post "pk" Hpost) as [pk ->]. by eexists. }
  destruct (map_from_succeeds (PostDetail.comment_entry moment_format) 0
              (Immutable.toJS_deep <$> comments)) as [entries Hentries].
  { apply Forall_fmap. eapply Forall_impl; [exact Hcomments|].
    intros comment Hcomment j. by apply comment_entry_succeeds. }
  assert (nullish (Immutable.toJS_deep (IMap entity)) = false) as Hpost.
  { by rewrite toJS_deep_nullish. }
  destruct (member_succeeds _ "title" Hpost) as [title Htitle].
  destruct (member_succeeds _ "featured_image" Hpost) as [src Hsrc].
  destruct (member_succeeds _ "content" Hpost) as [html Hhtml].
  unfold PostDetail.render, PostDetail.breadcrumbPath, PostDetail.renderDetail,
    PostDetail.comments_title, PostDetail.comment_entries,
    Immutable.toJS, Immutable.get.
  rewrite Hstatus, Hentity, Hlist, strict_eq_str_refl.
  cbn -[Immutable.toJS_deep member React.map_from].
  rewrite Htitle, Hsrc, Hhtml, Hsimilar.
  cbn -[Immutable.toJS_deep member React.map_from].
  rewrite Hitems.
  change (Immutable.toJS_deep (IList comments))
    with (VArr (Immutable.toJS_deep <$> comments)).
  cbn -[Immutable.toJS_deep React.map_from]. rewrite Hentries.
  simpl. repeat case_bool_decide; simpl; by eexists.
Qed.

(** In a page rendered in the SUCCESS state, the elements of the gate's
    types are those of the gate itself. *)
Lemma select_gate_of_page ty this out :
  PostDetail.gate_type ty →
  status this = VStr API_SUCCESS →
  render this = Ok out →
  select ty out = select ty (PostDetail.comment_gate (currentUser this)).
Proof.
  intros Hty Hstatus Hout.
  apply render_success_Ok in Hout
    as (crumbs & pending & fail & detail & Hdetail & -> & Hpending & Hfail);
    [|done].
  apply renderDetail_Ok in Hdetail
    as (comments & heading & entries & first & third
        & _ & _ & _ & _ & _ & -> & Hrest).
  destruct (Hrest ty Hty) as (Hfirst & Hentries & Hthird).
  assert (select ty pending = []) as Hp.
  { apply elem_of_cons in Hpending as [->|Hpending];
      [by destruct Hty as [->|[->| ->]]|].
    apply elem_of_cons in Hpending as [->|Hpending]; [done|].
    by apply elem_of_nil in Hpending. }
  assert (select ty fail = []) as Hf.
  { apply elem_of_cons in Hfail as [->|Hfail];
      [by destruct Hty as [->|[->| ->]]|].
    apply elem_of_cons in Hfail as [->|Hfail]; [done|].
    by apply elem_of_nil in Hfail. }
  cbn [select PostDetail.page flat_map].
  rewrite Hp, Hf, Hfirst, Hentries, Hthird, !app_nil_r.
  by destruct Hty as [->|[->| ->]].
Qed.

(** C4. In the SUCCESS state a loaded store renders, and in whatever the
    render returns: without a current user (none stored, or any falsy
    value) the page shows the sign-in prompt and no comment form, and a
    click on the prompt's link runs the handler that prevents the default
    navigation and then calls [show] for the sign-in modal; with a
    current user the page shows the comment form for that user and no
    prompt. *)
Theorem post_detail_comment_gate this :
  status this = VStr API_SUCCESS →
  (PostDetail.detail_loaded this → succeeds (render this))
  ∧ ∀ out, render this = Ok out →
    (truthy (currentUser this) = false →
       select "Alert" out = [ PostDetail.sign_in_prompt ]
       ∧ select "Link" out = [ PostDetail.sign_in_link ]
       ∧ select "CommentForm" out = []
       ∧ ∃ method,
           handler "onClick" PostDetail.sign_in_link = Some (AThis method)
           ∧ ∀ event, PostDetail.invoke method this event
               = Some [ PreventDefault; Call show [VStr "signinModal"] ])
    ∧ (truthy (currentUser this) = true →
       select "CommentForm" out = [ PostDetail.comment_form (currentUser this) ]
       ∧ select "Alert" out = []
       ∧ select "Link" out = []).
Proof.
  intros Hstatus. split; [by apply render_success_total|]. intros out Hout.
  pose proof (λ ty Hty, select_gate_of_page ty this out Hty Hstatus Hout) as Hsel.
  rewrite !Hsel by (unfold PostDetail.gate_type; tauto).
  unfold PostDetail.comment_gate. split; intros ->.
  - repeat split. by exists "handleSignIn".
  - done.
Qed.

(** C6. In the SUCCESS state with an empty comment list a loaded store
    renders, and in whatever the render returns the comments section is
    titled [Comments (0)] and its children are the [false] left by the
    guard of the entries and the gate: there is no comment entry. *)
Theorem post_detail_no_comments this :
  status this = VStr API_SUCCESS →
  commentList this = IList [] →
  (PostDetail.detail_loaded this → succeeds (render this))
  ∧ ∀ out, render this = Ok out →
    ∃ crumbs pending fail first third,
      out = PostDetail.page crumbs
        [ pending; fail;
          NElem "div" [ ("className", str "page-content") ]
            [ first;
              NElem "Section" [ ("title", str "Comments (0)") ]
                [ nothing; PostDetail.comment_gate (currentUser this) ];
              third ] ].
Proof.
  intros Hstatus Hempty. split; [by apply render_success_total|].
  intros out Hout.
  apply render_success_Ok in Hout
    as (crumbs & pending & fail & detail & Hdetail & -> & _); [|done].
  apply renderDetail_Ok in Hdetail
    as (comments & heading & entries & first & third
        & Hcomments & _ & _ & Hheading & Hentries & -> & _).
  rewrite Hempty in Hcomments. injection Hcomments as <-.
  injection Hheading as <-. injection Hentries as <-.
  by exists crumbs, pending, fail, first, third.
Qed.

End Rendering.

(** ** The theorems at work on the sample stores *)

Lemma donors_mount_fetches_unless_loaded_witness :
  Immutable.map_get (Donors.donors Examples.donors_fresh) "donorListPageLoaded"
    = VBool false
  ∧ Donors.componentWillMount Examples.donors_fresh = [Call getDonorListPage []]
  ∧ calls getDonorListPage (Donors.componentWillMount Examples.donors_fresh) = 1.
Proof.
  split; [vm_compute; reflexivity|].
  apply (donors_mount_fetches_unless_loaded Examples.donors_fresh false).
  vm_compute; reflexivity.
Defined.

Lemma post_detail_refetches_on_id_change_witness :
  PostDetail.componentWillReceiveProps Examples.signed_in Examples.signed_in_elsewhere
    = [ Call getPostDetail [VObj {[ "id" := VStr "8" ]}];
        Call getPostCommentList [VObj {[ "id" := VStr "8" ]}] ]
  ∧ PostDetail.componentWillReceiveProps Examples.signed_in Examples.signed_in = [].
Proof.
  destruct (post_detail_refetches_on_id_change
              Examples.signed_in Examples.signed_in_elsewhere) as [Hchanged _].
  destruct (post_detail_refetches_on_id_change
              Examples.signed_in Examples.signed_in) as [_ Hsame].
  split.
  - apply Hchanged. vm_compute. discriminate.
  - apply Hsame. reflexivity.
Defined.

Lemma donors_render_defaults_missing_image_witness :
  ∃ cards,
    Donors.render Examples.donors_loaded = Ok (Donors.page (NSeq cards))
    ∧ length cards = 2
    ∧ cards !! 0 = Some (NElem "DonorCard"
        [ ("key", AVal (VNum 1)); ("id", AVal (VNum 1));
          ("image", AVal (VStr ""));
          ("title", AVal (VStr "Ann"));
          ("description", AVal (VStr "first donor")) ]
        []).
Proof.
  destruct (donors_render_defaults_missing_image Examples.donors_loaded
              [ Examples.donor_plain; Examples.donor_pictured ])
    as (cards & Hrender & Hlength & Hcards).
  - vm_compute; reflexivity.
  - repeat constructor; try (by eexists); vm_compute; reflexivity.
  - exists cards. split; [exact Hrender|]. split; [exact Hlength|].
    apply (Hcards 0 _ eq_refl). vm_compute; reflexivity.
Defined.

Lemma post_detail_breadcrumb_total_witness :
  PostDetail.breadcrumbPath Examples.pending
    = Ok (VArr [ VObj {[ "route" := VStr "/"; "text" := VStr "Home" ]};
                 VObj {[ "route" := VStr "/blog"; "text" := VStr "Posts" ]};
                 VObj {[ "text" := VStr "" ]} ]).
Proof.
  destruct (post_detail_breadcrumb_total Examples.pending)
    as (title & Hpath & Habsent & _).
  - vm_compute. discriminate.
  - rewrite Hpath, (Habsent eq_refl). reflexivity.
Defined.

Lemma post_detail_success_needs_data_witness :
  PostDetail.render Examples.moment_format Examples.immutable_toString
    Examples.API_PENDING Examples.API_SUCCESS Examples.API_FAIL
    Examples.success_without_detail
  = Throw TypeError.
Proof.
  destruct (post_detail_success_needs_data
              Examples.moment_format Examples.immutable_toString
              Examples.API_PENDING Examples.API_SUCCESS Examples.API_FAIL
              Examples.success_without_detail) as [Hmissing _].
  - vm_compute; reflexivity.
  - apply Hmissing. left. vm_compute; reflexivity.
Defined.

Lemma examples_anonymous_loaded : PostDetail.detail_loaded Examples.anonymous.
Proof.
  exists ({[ "pk" := VNum 7; "title" := VStr "Hello";
             "featured_image" := VStr "/media/hello.png";
             "content" := VStr "<p>Hello</p>";
             "similar_posts" := IList [ IMap {[ "pk" := VNum 8 ]} ] ]}
            : gmap string value),
         [ IMap {[ "pk" := VNum 8 ]} ], [].
  split; [vm_compute; reflexivity|]. split; [vm_compute; reflexivity|].
  split; [by repeat constructor|]. split; [vm_compute; reflexivity|].
  constructor.
Qed.

Lemma post_detail_comment_gate_witness :
  ∃ out,
    PostDetail.render Examples.moment_format Examples.immutable_toString
      Examples.API_PENDING Examples.API_SUCCESS Examples.API_FAIL
      Examples.anonymous
    = Ok out
    ∧ select "Alert" out = [ PostDetail.sign_in_prompt ]
    ∧ select "Link" out = [ PostDetail.sign_in_link ]
    ∧ select "CommentForm" out = [].
Proof.
  destruct (post_detail_comment_gate
              Examples.moment_format Examples.immutable_toString
              Examples.API_PENDING Examples.API_SUCCESS Examples.API_FAIL
              Examples.anonymous eq_refl) as [Hrenders Hgate].
  destruct (Hrenders examples_anonymous_loaded) as [out Hout].
  exists out. split; [exact Hout|].
  destruct (Hgate out Hout) as [Hanonymous _].
  destruct (Hanonymous eq_refl) as (Halert & Hlink & Hform & _).
  split; [exact Halert|]. split; [exact Hlink | exact Hform].
Defined.

Lemma post_detail_no_comments_witness :
  ∃ out,
    PostDetail.render Examples.moment_format Examples.immutable_toString
      Examples.API_PENDING Examples.API_SUCCESS Examples.API_FAIL
      Examples.anonymous
    = Ok out
    ∧ ∃ crumbs pending fail first third,
        out = PostDetail.page crumbs
          [ pending; fail;
            NElem "div" [ ("className", str "page-content") ]
              [ first;
                NElem "Section" [ ("title", str "Comments (0)") ]
                  [ nothing; PostDetail.sign_in_prompt ];
                third ] ].
Proof.
  destruct (post_detail_no_comments
              Examples.moment_format Examples.immutable_toString
              Examples.API_PENDING Examples.API_SUCCESS Examples.API_FAIL
              Examples.anonymous eq_refl eq_refl) as [Hrenders Hsection].
  destruct (Hrenders examples_anonymous_loaded) as [out Hout].
  exists out. split; [exact Hout|]. exact (Hsection out Hout).
Defined.

(** * Further properties of the two views *)

(** ** A session of the detail view *)

Lemma calls_getDetail_trace (ids : list string) :
  calls getPostDetail (flat_map PostDetail.getDetail ids) = length ids
  ∧ calls getPostCommentList (flat_map PostDetail.getDetail ids) = length ids.
Proof.
  unfold calls. induction ids as [|i ids [IHd IHc]]; [done|].
  simpl. split; f_equal; [exact IHd | exact IHc].
Qed.

Lemma session_updates_trace (this : PostDetail.props) later :
  PostDetail.getDetail (Session.route this) ++ Session.updates this later
  = flat_map PostDetail.getDetail
      (Session.route this
         :: Session.changes (Session.route this) (Session.route <$> later)).
Proof.
  revert this. induction later as [|nextProps later IH]; intros this.
  - reflexivity.
  - cbn [Session.updates Session.changes fmap list_fmap].
    unfold PostDetail.componentWillReceiveProps. fold (Session.route this).
    fold (Session.route nextProps).
    destruct (bool_decide (Session.route this ≠ Session.route nextProps)) eqn:Hid.
    + rewrite IH. reflexivity.
    + apply bool_decide_eq_false_1 in Hid.
      assert (Session.route this = Session.route nextProps) as Heq.
      { by destruct (decide (Session.route this = Session.route nextProps)). }
      rewrite Heq. cbn [app]. rewrite (IH nextProps). reflexivity.
Qed.

(** X1. Over a whole session (a mount followed by any number of prop
    updates) the view dispatches exactly one detail fetch immediately
    followed by one comment-list fetch for the first route identifier and
    for every later identifier that differs from the one before it, in
    that order, and nothing else. *)
Theorem session_fetches_once_per_route_change
    (first : PostDetail.props) (later : list PostDetail.props) :
  let visited :=
    Session.route first
      :: Session.changes (Session.route first) (Session.route <$> later) in
  Session.run first later = flat_map PostDetail.getDetail visited
  ∧ calls getPostDetail (Session.run first later) = length visited
  ∧ calls getPostCommentList (Session.run first later) = length visited
  ∧ calls createPostComment (Session.run first later) = 0.
Proof.
  intros visited.
  assert (Session.run first later = flat_map PostDetail.getDetail visited) as ->.
  { unfold Session.run, PostDetail.componentWillMount.
    apply session_updates_trace. }
  split; [done|]. split; [apply calls_getDetail_trace|].
  split; [apply calls_getDetail_trace|].
  generalize visited. intros ids. unfold calls.
  induction ids as [|i ids IH]; [done|]. exact IH.
Qed.

Lemma session_ends_on_current (this : PostDetail.props) later :
  ∃ earlier,
    PostDetail.getDetail (Session.route this) ++ Session.updates this later
    = earlier
      ++ PostDetail.getDetail (Session.route (default this (last later))).
Proof.
  revert this. induction later as [|nextProps later IH]; intros this.
  - exists []. reflexivity.
  - destruct (IH nextProps) as [earlier Hearlier].
    assert (default this (last (nextProps :: later))
            = default nextProps (last later)) as ->.
    { rewrite last_cons. by destruct (last later). }
    cbn [Session.updates]. unfold PostDetail.componentWillReceiveProps.
    fold (Session.route this). fold (Session.route nextProps).
    destruct (bool_decide (Session.route this ≠ Session.route nextProps)) eqn:Hid.
    + exists (PostDetail.getDetail (Session.route this) ++ earlier).
      by rewrite <- app_assoc, <- Hearlier.
    + apply bool_decide_eq_false_1 in Hid.
      assert (Session.route this = Session.route nextProps) as Heq.
      { by destruct (decide (Session.route this = Session.route nextProps)). }
      exists earlier. rewrite Heq. exact Hearlier.
Qed.

(** X2. However the route moved during a session, the last two calls the
    view made are the detail fetch and the comment-list fetch for the
    route identifier of the props it holds now. *)
Theorem session_last_fetch_is_current
    (first : PostDetail.props) (later : list PostDetail.props) :
  ∃ earlier,
    Session.run first later
    = earlier
      ++ [ Call getPostDetail
             [VObj {[ "id" := VStr (Session.route (default first (last later))) ]}];
           Call getPostCommentList
             [VObj {[ "id" := VStr (Session.route (default first (last later))) ]}] ].
Proof.
  destruct (session_ends_on_current first later) as [earlier Hearlier].
  exists earlier. exact Hearlier.
Qed.

(** ** The listing view, item by item *)

Lemma map_from_pure cb (f : value → node) i l :
  (∀ x, x ∈ l → ∀ j, cb x j = Ok (f x)) →
  React.map_from cb i l = Ok (f <$> l).
Proof.
  revert i. induction l as [|x l IH]; intros i Hcb; [done|].
  simpl. rewrite Hcb by left. simpl.
  rewrite IH; [done|]. intros x' Hx' j. apply Hcb. by right.
Qed.

Lemma map_from_all_ok cb i l ys x :
  React.map_from cb i l = Ok ys → x ∈ l → ∃ j, succeeds (cb x j).
Proof.
  revert i ys. induction l as [|x' l IH]; intros i ys H Hx.
  - by apply elem_of_nil in Hx.
  - simpl in H. ok_steps H. apply elem_of_cons in Hx as [->|Hx].
    + exists (VNum (Z.of_nat i)). by eexists.
    + eauto.
Qed.

Lemma mapM_result_all_ok {A B} (f : A → result B) l ys x :
  mapM f l = Ok ys → x ∈ l → succeeds (f x).
Proof.
  revert ys. induction l as [|x' l IH]; intros ys H Hx.
  - by apply elem_of_nil in Hx.
  - simpl in H. ok_steps H. apply elem_of_cons in Hx as [->|Hx].
    + by eexists.
    + eauto.
Qed.

Lemma mapM_result_succeeds {A B} (f : A → result B) l :
  Forall (λ x, succeeds (f x)) l → succeeds (mapM f l).
Proof.
  induction 1 as [|x l [y Hy] _ [ys Hys]]; [by eexists|].
  exists (y :: ys). simpl. by rewrite Hy, Hys.
Qed.

Lemma donors_image_expected (m : gmap string value) :
  Immutable.immutable_data (IMap m) = true →
  Immutable.getIn_from (IMap m)
    [Immutable.KStr "media"; Immutable.KIdx 0; Immutable.KStr "url"] (VStr "")
  = Ok (Expected.image m).
Proof.
  intros Hdata. unfold Expected.image. simpl.
  destruct (m !! "media") as [media|] eqn:Hmedia; [|done].
  assert (Immutable.immutable_data media = true) as Hm.
  { by apply (immutable_data_lookup (IMap m) (Immutable.KStr "media")). }
  destruct media as [| | | | | |?|?|items|? ?]; try done. simpl.
  destruct items as [|first rest]; [done|]. simpl.
  assert (Immutable.immutable_data first = true) as Hf.
  { by apply (immutable_data_lookup (IList (first :: rest)) (Immutable.KIdx 0)). }
  destruct first as [| | | | | |?|entry|?|? ?]; try done. simpl.
  by destruct (entry !! "url").
Qed.

Lemma donors_card_expected (m : gmap string value) :
  Immutable.immutable_data (IMap m) = true →
  Donors.card (IMap m) = Ok (Expected.donor_card m).
Proof.
  intros Hdata. by rewrite donors_card_of_map, donors_image_expected.
Qed.

Lemma donors_card_needs_collection (donor : value) :
  succeeds (Donors.card donor) → Immutable.is_collection donor = true.
Proof.
  intros [out Hout]. unfold Donors.card, Immutable.get in Hout.
  by destruct (Immutable.is_collection donor).
Qed.

Lemma donors_card_succeeds (donor : value) :
  Immutable.is_collection donor = true →
  Immutable.immutable_data donor = true →
  succeeds (Donors.card donor).
Proof.
  intros Hcoll Hdata. destruct donor; try done.
  - rewrite donors_card_expected by done. by eexists.
  - by eexists.
Qed.

(** X3. When the store's list holds Immutable maps of Immutable data, the
    listing view renders exactly one card per item, in store order, each
    with the item's [pk] as key and id, its title and description, and
    as image the [url] of its first media entry, or the empty string
    when the item has no media, no first entry or no [url] there. *)
Theorem donors_render_cards_in_order
    (this : Donors.props) (items : list (gmap string value)) :
  Immutable.map_get (Donors.donors this) "donorListPage" = IList (IMap <$> items) →
  Forall (λ m, Immutable.immutable_data (IMap m) = true) items →
  Donors.render this
    = Ok (Donors.page (NSeq (Expected.donor_card <$> items))).
Proof.
  intros Hlist Hitems. unfold Donors.render. rewrite Hlist. simpl.
  rewrite (map_from_pure _
    (λ donor, match donor with
              | IMap m => Expected.donor_card m
              | _ => nothing
              end)).
  - simpl. by rewrite <- list_fmap_compose.
  - intros donor Hdonor _. apply list_elem_of_fmap in Hdonor as (m & -> & Hm).
    apply donors_card_expected.
    rewrite Forall_forall in Hitems. by apply Hitems.
Qed.

(** X4. The listing view renders only if the list slot of the store
    holds a collection whose items are all Immutable collections, and on
    a store of Immutable data it renders whenever that is so; in
    particular a store without the list throws instead of showing zero
    cards, and one [null] item fails the whole page. *)
Theorem donors_render_returns_iff (this : Donors.props) :
  let slot := Immutable.map_get (Donors.donors this) "donorListPage" in
  (succeeds (Donors.render this) → Expected.donor_list slot)
  ∧ (Immutable.immutable_data slot = true → Expected.donor_list slot →
     succeeds (Donors.render this))
  ∧ (nullish slot = true → Donors.render this = Throw TypeError)
  ∧ (∀ items, slot = IList items → VNull ∈ items →
     Donors.render this = Throw TypeError).
Proof.
  intros slot.
  assert (succeeds (Donors.render this) → Expected.donor_list slot) as Honly.
  { intros [out Hout]. unfold Donors.render in Hout. fold slot in Hout.
    ok_steps Hout. destruct slot as [| | | | | |items|entries|items|? ?];
      simpl in Hstep; try done.
    - apply fmap_Ok in Hstep as (ys & Hys & _). left. exists items.
      split; [by right|]. apply Forall_forall. intros donor Hdonor.
      destruct (map_from_all_ok _ _ _ _ _ Hys Hdonor) as [_ Hcard].
      by apply donors_card_needs_collection.
    - apply fmap_Ok in Hstep as (es & Hes & _). right. exists entries.
      split; [done|]. intros k donor Hk.
      apply elem_of_map_to_list in Hk.
      destruct (mapM_result_all_ok _ _ _ _ Hes Hk) as [y Hy].
      simpl in Hy. apply fmap_Ok in Hy as (card & Hcard & _).
      apply donors_card_needs_collection. by eexists.
    - apply fmap_Ok in Hstep as (ys & Hys & _). left. exists items.
      split; [by left|]. apply Forall_forall. intros donor Hdonor.
      destruct (map_from_all_ok _ _ _ _ _ Hys Hdonor) as [_ Hcard].
      by apply donors_card_needs_collection. }
  split; [exact Honly|]. split; [|split].
  - intros Hdata [(items & [Hslot|Hslot] & Hitems)|(entries & Hslot & Hentries)];
      unfold Donors.render; fold slot; rewrite Hslot in *; simpl.
    + destruct (map_from_succeeds (λ donor _, Donors.card donor) 0 items)
        as [cards ->]; [|by eexists].
      apply Forall_forall. intros donor Hdonor _.
      apply donors_card_succeeds.
      * rewrite Forall_forall in Hitems. by apply Hitems.
      * simpl in Hdata. rewrite forallb_forall in Hdata.
        by apply Hdata, list_elem_of_In.
    + done.
    + destruct (mapM_result_succeeds
        (λ kv : string * value,
           pair kv.1 <$> (λ donor _ : value, Donors.card donor) kv.2 (VStr kv.1))
        (map_to_list entries)) as [es ->]; [|by eexists].
      apply Forall_forall. intros [k donor] Hk. simpl.
      apply elem_of_map_to_list in Hk.
      destruct (donors_card_succeeds donor) as [card ->]; [..|by eexists].
      * by apply (Hentries k).
      * by apply (immutable_data_lookup (IMap entries) (Immutable.KStr k)).
  - intros Hnull. destruct (result_cases (Donors.render this)) as [Hok|]; [|done].
    apply Honly in Hok
      as [(items & [Hslot|Hslot] & _)|(entries & Hslot & _)];
      by rewrite Hslot in Hnull.
  - intros items Hslot Hnull.
    destruct (result_cases (Donors.render this)) as [Hok|]; [|done].
    apply Honly in Hok
      as [(items' & [Hslot'|Hslot'] & Hitems)|(entries & Hslot' & _)];
      rewrite Hslot in Hslot'; try done.
    injection Hslot' as <-. rewrite Forall_forall in Hitems.
    by apply Hitems in Hnull.
Qed.

(** ** The detail view, section by section *)

Section Sections.

Context (moment_format : value → string → string).
Context (immutable_toString : value → string).
Context (API_PENDING API_SUCCESS API_FAIL : string).

Implicit Types (this : PostDetail.props) (out detail : node).

Local Abbreviation render :=
  (PostDetail.render moment_format immutable_toString
     API_PENDING API_SUCCESS API_FAIL).
Local Abbreviation renderDetail :=
  (PostDetail.renderDetail moment_format immutable_toString).
Local Abbreviation status this :=
  (Immutable.map_get (PostDetail.blog this) "postDetailStatus").
Local Abbreviation postDetail this :=
  (Immutable.map_get (PostDetail.blog this) "postDetail").
Local Abbreviation commentList this :=
  (Immutable.map_get (PostDetail.blog this) "commentList").
Local Abbreviation currentUser this :=
  (Immutable.map_get (PostDetail.auth this) "currentUser").
Local Abbreviation similarPosts this :=
  (default VUndef
     (Immutable.lookup_key (postDetail this) (Immutable.KStr "similar_posts"))).

(** A field of the plain copy of a map is the plain copy of the field. *)
Lemma toJS_field (m : gmap string value) (k : string) :
  default VUndef ((Immutable.toJS_deep <$> m) !! k)
  = Immutable.toJS_deep (Immutable.map_get m k).
Proof.
  unfold Immutable.map_get. rewrite lookup_fmap. by destruct (m !! k).
Qed.

(** The plain copy of a map without a ["__proto__"] entry has the copies
    of the map's entries as its own fields and the usual prototype. *)
Lemma toJS_deep_plain (m : gmap string value) :
  m !! "__proto__" = None →
  Immutable.toJS_deep (IMap m) = VObj (Immutable.toJS_deep <$> m).
Proof.
  intros Hproto. simpl. unfold assign_all. by rewrite lookup_fmap, Hproto.
Qed.

(** Everything a successful [renderDetail] computed, and the tree it
    assembled from it. *)
Lemma renderDetail_sections this detail :
  renderDetail this = Ok detail →
  ∃ comments post title src html heading entries similar,
    Immutable.toJS (commentList this) = Ok comments
    ∧ Immutable.toJS (postDetail this) = Ok post
    ∧ member post "title" = Ok title
    ∧ member post "featured_image" = Ok src
    ∧ member post "content" = Ok html
    ∧ PostDetail.comments_title immutable_toString comments = Ok heading
    ∧ PostDetail.comment_entries moment_format comments = Ok entries
    ∧ React.map (similarPosts this) (λ post _, PostDetail.similar_post post)
      = Ok similar
    ∧ detail = NElem "div" [ ("className", str "page-content") ]
        [ NElem "Section" [ ("title", AVal title) ]
            [ NElem "p" []
                [ NElem "img"
                    [ ("src", AVal src); ("alt", AVal title);
                      ("className", str "w-100") ] [] ];
              NElem "div"
                [ ("className", str "my-5");
                  ("dangerouslySetInnerHTML", AVal (VObj {[ "__html" := html ]})) ]
                [] ];
          NElem "Section" [ ("title", str heading) ]
            [ entries; PostDetail.comment_gate (currentUser this) ];
          NElem "Section" [ ("title", str "Similar Posts") ]
            [ NElem "Row" [ ("className", str "mb-5") ] [ similar ] ] ].
Proof.
  intros Hdetail. unfold PostDetail.renderDetail in Hdetail. simpl in Hdetail.
  ok_steps Hdetail. injection Hdetail as <-.
  unfold Immutable.get in Hstep0.
  destruct (Immutable.is_collection (postDetail this)); [|done].
  injection Hstep0 as <-.
  rewrite Hstep2 in Hstep4. injection Hstep4 as <-.
  by exists a, a1, a2, a3, a5, a6, a7, a8.
Qed.

Lemma render_success_detail this out :
  status this = VStr API_SUCCESS →
  render this = Ok out →
  ∃ crumbs pending fail detail,
    renderDetail this = Ok detail
    ∧ out = PostDetail.page crumbs [ pending; fail; detail ]
    ∧ pending ∈ [ PostDetail.spinner; nothing ]
    ∧ fail ∈ [ PostDetail.not_found; nothing ].
Proof.
  intros Hstatus Hout. unfold PostDetail.render in Hout. simpl in Hout.
  rewrite Hstatus in Hout. simpl in Hout.
  rewrite (bool_decide_eq_true_2 (API_SUCCESS = API_SUCCESS)) in Hout by done.
  ok_steps Hout. injection Hout as <-.
  exists a, a0, a1, a2. split; [done|]. split; [done|]. split.
  - eapply if_Ok_elem, Hstep0.
  - eapply if_Ok_elem, Hstep1.
Qed.

(** X5. In the SUCCESS state a loaded store renders, and for a detail
    entity stored as an Immutable map without a ["__proto__"] entry the
    first section of the page shows the entity's title as heading and as
    the image's alternative text, its featured image as the image source
    and its content as inner HTML; a field the entity lacks is shown as
    [undefined], it does not make the render fail. *)
Theorem post_detail_shows_post this (entity : gmap string value) :
  status this = VStr API_SUCCESS →
  postDetail this = IMap entity →
  entity !! "__proto__" = None →
  (PostDetail.detail_loaded this → succeeds (render this))
  ∧ ∀ out, render this = Ok out →
    ∃ crumbs pending fail second third,
      out = PostDetail.page crumbs
        [ pending; fail;
          NElem "div" [ ("className", str "page-content") ]
            [ Expected.post_section entity; second; third ] ].
Proof.
  intros Hstatus Hentity Hplain. split; [by apply render_success_total|].
  intros out Hout.
  apply render_success_detail in Hout
    as (crumbs & pending & fail & detail & Hdetail & -> & _); [|done].
  apply renderDetail_sections in Hdetail
    as (comments & post & title & src & html & heading & entries & similar
        & _ & Hpost & Htitle & Hsrc & Hhtml & _ & _ & _ & ->).
  rewrite Hentity in Hpost. unfold Immutable.toJS in Hpost.
  cbn [Immutable.is_collection] in Hpost. rewrite toJS_deep_plain in Hpost by done.
  injection Hpost as <-.
  simpl in Htitle, Hsrc, Hhtml. rewrite toJS_field in Htitle, Hsrc, Hhtml.
  injection Htitle as <-. injection Hsrc as <-. injection Hhtml as <-.
  by do 5 eexists.
Qed.

(** The comment entries of a non-empty comment list. *)
Lemma comment_entries_of_list (comments : list value) entries :
  comments ≠ [] →
  PostDetail.comment_entries moment_format
    (VArr (Immutable.toJS_deep <$> comments)) = Ok entries →
  ∃ ys,
    entries = NSeq ys
    ∧ React.map_from (PostDetail.comment_entry moment_format) 0
        (Immutable.toJS_deep <$> comments) = Ok ys.
Proof.
  intros Hne Hentries. unfold PostDetail.comment_entries in Hentries.
  simpl in Hentries.
  rewrite bool_decide_eq_true_2 in Hentries.
  - apply fmap_Ok in Hentries as (ys & Hys & ->). by exists ys.
  - rewrite length_fmap. destruct comments; [done|]. simpl. lia.
Qed.

Lemma comment_entry_expected (index : nat) (comment author : gmap string value) :
  comment !! "__proto__" = None →
  author !! "__proto__" = None →
  comment !! "user" = Some (IMap author) →
  PostDetail.comment_entry moment_format
    (Immutable.toJS_deep (IMap comment)) (VNum (Z.of_nat index))
  = Ok (Expected.comment_entry moment_format index comment author).
Proof.
  intros Hcomment Hplain Hauthor.
  unfold PostDetail.comment_entry, Expected.comment_entry.
  rewrite (toJS_deep_plain comment) by done. simpl. rewrite !toJS_field.
  unfold Immutable.map_get at 3. rewrite Hauthor.
  change (default VUndef (Some (IMap author))) with (IMap author).
  rewrite (toJS_deep_plain author) by done. simpl.
  by rewrite toJS_field.
Qed.

(** X6. In the SUCCESS state with a non-empty comment list, the comments
    section of the page is titled with the number of comments and holds
    one entry per comment, in store order; the entry of a comment with
    an author, both stored as Immutable maps without a ["__proto__"]
    entry, shows the comment's content, its creation date as the
    formatter of the render prints it and the author's full name, and is
    keyed by its position. *)
Theorem post_detail_lists_comments this (comments : list value) :
  status this = VStr API_SUCCESS →
  commentList this = IList comments →
  comments ≠ [] →
  (PostDetail.detail_loaded this → succeeds (render this))
  ∧ ∀ out, render this = Ok out →
    ∃ crumbs pending fail first third entries,
      out = PostDetail.page crumbs
        [ pending; fail;
          NElem "div" [ ("className", str "page-content") ]
            [ first;
              NElem "Section"
                [ ("title",
                   str ("Comments ("
                          +:+ pretty (Z.of_nat (length comments)) +:+ ")")) ]
                [ NSeq entries; PostDetail.comment_gate (currentUser this) ];
              third ] ]
      ∧ length entries = length comments
      ∧ ∀ i comment author,
          comments !! i = Some (IMap comment) →
          comment !! "user" = Some (IMap author) →
          comment !! "__proto__" = None →
          author !! "__proto__" = None →
          entries !! i
            = Some (Expected.comment_entry moment_format i comment author).
Proof.
  intros Hstatus Hlist Hne. split; [by apply render_success_total|].
  intros out Hout.
  apply render_success_detail in Hout
    as (crumbs & pending & fail & detail & Hdetail & -> & _); [|done].
  apply renderDetail_sections in Hdetail
    as (cs & post & title & src & html & heading & entries & similar
        & Hcs & _ & _ & _ & _ & Hheading & Hentries & _ & ->).
  rewrite Hlist in Hcs. injection Hcs as <-.
  apply comment_entries_of_list in Hentries as (ys & -> & Hys); [|done].
  injection Hheading as <-.
  do 5 eexists. exists ys. split; [|split].
  - simpl. by rewrite length_fmap.
  - apply map_from_length in Hys. by rewrite length_fmap in Hys.
  - intros i comment author Hi Hauthor Hcomment Hplain.
    destruct (map_from_lookup _ _ _ _ i (Immutable.toJS_deep (IMap comment)) Hys)
      as (y & Hy & Hentry).
    { by rewrite list_lookup_fmap, Hi. }
    rewrite Hy. f_equal.
    rewrite (comment_entry_expected _ _ author) in Hentry by done.
    by injection Hentry as <-.
Qed.

(** A stored comment whose author cannot be read. *)
Lemma comment_entry_needs_author (comment index : value) :
  nullish comment = true
  ∨ (∃ m, comment = IMap m ∧ m !! "__proto__" = None
          ∧ nullish (Immutable.map_get m "user") = true) →
  ¬ succeeds (PostDetail.comment_entry moment_format
                (Immutable.toJS_deep comment) index).
Proof.
  intros [Hnull|(m & -> & Hplain & Hauthor)] [entry Hentry];
    unfold PostDetail.comment_entry in Hentry.
  - by destruct comment.
  - rewrite toJS_deep_plain in Hentry by done.
    simpl in Hentry. rewrite !toJS_field in Hentry.
    rewrite <- toJS_deep_nullish in Hauthor.
    by destruct (Immutable.toJS_deep (Immutable.map_get m "user")).
Qed.

(** X7. In the SUCCESS state, one stored comment that is [null], or that
    is a map with neither an author nor a ["__proto__"] entry to inherit
    one from, makes the whole render throw, even when the detail entity,
    its similar posts and the comment list are all there. *)
Theorem post_detail_comment_without_author_throws
    this (comments : list value) (comment : value) :
  status this = VStr API_SUCCESS →
  commentList this = IList comments →
  comment ∈ comments →
  nullish comment = true
  ∨ (∃ m, comment = IMap m ∧ m !! "__proto__" = None
          ∧ nullish (Immutable.map_get m "user") = true) →
  render this = Throw TypeError.
Proof.
  intros Hstatus Hlist Hin Hbroken.
  destruct (result_cases (render this)) as [[out Hout]|]; [|done].
  apply render_success_detail in Hout
    as (crumbs & pending & fail & detail & Hdetail & _); [|done].
  apply renderDetail_sections in Hdetail
    as (cs & post & title & src & html & heading & entries & similar
        & Hcs & _ & _ & _ & _ & _ & Hentries & _).
  rewrite Hlist in Hcs. injection Hcs as <-.
  apply comment_entries_of_list in Hentries as (ys & _ & Hys).
  - destruct (map_from_all_ok _ _ _ _ (Immutable.toJS_deep comment) Hys)
      as [index Hok].
    { apply list_elem_of_fmap. by exists comment. }
    by apply comment_entry_needs_author in Hok.
  - intros ->. by apply elem_of_nil in Hin.
Qed.

(** The items of the similar-posts row. *)
Lemma similar_posts_items (posts : list value) i ys :
  React.map_from (λ post _, PostDetail.similar_post post) i posts = Ok ys →
  flat_map (select "PostItem") ys = ys
  ∧ Forall2 (λ post item,
       ∃ pk, member post "pk" = Ok pk
             ∧ item = NElem "PostItem" [ ("key", AVal pk); ("post", AVal post) ] [])
      posts ys.
Proof.
  revert i ys. induction posts as [|post posts IH]; intros i ys Hys;
    simpl in Hys.
  - injection Hys as <-. by split.
  - ok_steps Hys. injection Hys as <-.
    unfold PostDetail.similar_post in Hstep. ok_steps Hstep.
    injection Hstep as <-. destruct (IH _ _ Hstep0) as [Hflat Hall].
    split.
    + simpl. by rewrite Hflat.
    + constructor; [by eexists|done].
Qed.

Lemma comment_entries_no_post_item comments entries :
  PostDetail.comment_entries moment_format comments = Ok entries →
  select "PostItem" entries = [].
Proof.
  intros Hentries. unfold PostDetail.comment_entries in Hentries.
  destruct (truthy comments); [|by injection Hentries as <-].
  ok_steps Hentries. destruct (truthy a); [|by injection Hentries as <-].
  eapply select_map_nil; [exact Hentries|].
  intros x i y Hy. unfold PostDetail.comment_entry in Hy.
  ok_steps Hy. by injection Hy as <-.
Qed.

(** X8. In the SUCCESS state with the similar posts stored as a list, the
    post items of the page are exactly one per similar post, in store
    order, each handed its post whole and keyed by the post's [pk]
    property; a post stored as an Immutable map has no such property, so
    its item's key is [undefined]. *)
Theorem post_detail_lists_similar_posts this (posts : list value) :
  status this = VStr API_SUCCESS →
  similarPosts this = IList posts →
  ∀ out, render this = Ok out →
    Forall2 (λ post item,
       ∃ pk, member post "pk" = Ok pk
             ∧ item = NElem "PostItem" [ ("key", AVal pk); ("post", AVal post) ] [])
      posts (select "PostItem" out)
    ∧ ∀ i m, posts !! i = Some (IMap m) →
        select "PostItem" out !! i
        = Some (NElem "PostItem"
                  [ ("key", AVal VUndef); ("post", AVal (IMap m)) ] []).
Proof.
  intros Hstatus Hposts out Hout.
  apply render_success_detail in Hout
    as (crumbs & pending & fail & detail & Hdetail & -> & Hpending & Hfail);
    [|done].
  apply renderDetail_sections in Hdetail
    as (cs & post & title & src & html & heading & entries & similar
        & _ & _ & _ & _ & _ & _ & Hentries & Hsimilar & ->).
  rewrite Hposts in Hsimilar. simpl in Hsimilar.
  apply fmap_Ok in Hsimilar as (ys & Hys & ->).
  apply similar_posts_items in Hys as [Hflat Hall].
  assert (select "PostItem" pending = []) as Hp.
  { apply elem_of_cons in Hpending as [->|Hpending]; [done|].
    apply elem_of_cons in Hpending as [->|Hpending]; [done|].
    by apply elem_of_nil in Hpending. }
  assert (select "PostItem" fail = []) as Hf.
  { apply elem_of_cons in Hfail as [->|Hfail]; [done|].
    apply elem_of_cons in Hfail as [->|Hfail]; [done|].
    by apply elem_of_nil in Hfail. }
  assert (select "PostItem" (PostDetail.comment_gate (currentUser this)) = [])
    as Hgate.
  { unfold PostDetail.comment_gate. by destruct (truthy _). }
  assert (select "PostItem"
            (PostDetail.page crumbs
               [ pending; fail;
                 NElem "div" [ ("className", str "page-content") ]
                   [ NElem "Section" [ ("title", AVal title) ]
                       [ NElem "p" []
                           [ NElem "img"
                               [ ("src", AVal src); ("alt", AVal title);
                                 ("className", str "w-100") ] [] ];
                         NElem "div"
                           [ ("className", str "my-5");
                             ("dangerouslySetInnerHTML",
                              AVal (VObj {[ "__html" := html ]})) ]
                           [] ];
                     NElem "Section" [ ("title", str heading) ]
                       [ entries; PostDetail.comment_gate (currentUser this) ];
                     NElem "Section" [ ("title", str "Similar Posts") ]
                       [ NElem "Row" [ ("className", str "mb-5") ] [ NSeq ys ] ] ] ])
          = ys) as ->.
  { cbn [select PostDetail.page flat_map].
    rewrite Hp, Hf, Hgate, (comment_entries_no_post_item _ _ Hentries), Hflat.
    simpl. by rewrite !app_nil_r. }
  split; [exact Hall|].
  intros i m Hi.
  destruct (Forall2_lookup_l _ _ _ _ _ Hall Hi) as (item & Hitem & pk & Hpk & ->).
  rewrite Hitem. by injection Hpk as <-.
Qed.


(** X11. In the SUCCESS state, for a detail entity stored as a map that
    has no title of its own but a ["__proto__"] entry holding a map, the
    title of the post section and the image's alternative text are the
    title of that inner map: the plain copy made by [toJS] inherits from
    it. *)
Theorem post_detail_inherits_title this (entity base : gmap string value) :
  status this = VStr API_SUCCESS →
  postDetail this = IMap entity →
  entity !! "title" = None →
  entity !! "__proto__" = Some (IMap base) →
  base !! "__proto__" = None →
  ∀ out, render this = Ok out →
    ∃ crumbs pending fail src html second third,
      out = PostDetail.page crumbs
        [ pending; fail;
          NElem "div" [ ("className", str "page-content") ]
            [ NElem "Section"
                [ ("title",
                   AVal (Immutable.toJS_deep (Immutable.map_get base "title"))) ]
                [ NElem "p" []
                    [ NElem "img"
                        [ ("src", AVal src);
                          ("alt",
                           AVal (Immutable.toJS_deep
                                   (Immutable.map_get base "title")));
                          ("className", str "w-100") ] [] ];
                  NElem "div"
                    [ ("className", str "my-5");
                      ("dangerouslySetInnerHTML",
                       AVal (VObj {[ "__html" := html ]})) ]
                    [] ];
              second; third ] ].
Proof.
  intros Hstatus Hentity Htitle Hproto Hbase out Hout.
  apply render_success_detail in Hout
    as (crumbs & pending & fail & detail & Hdetail & -> & _); [|done].
  apply renderDetail_sections in Hdetail
    as (comments & post & title & src & html & heading & entries & similar
        & _ & Hpost & Hread & _ & _ & _ & _ & _ & ->).
  rewrite Hentity in Hpost. unfold Immutable.toJS in Hpost.
  cbn [Immutable.is_collection] in Hpost. injection Hpost as <-.
  assert (title = Immutable.toJS_deep (Immutable.map_get base "title")) as ->.
  { revert Hread. cbn [Immutable.toJS_deep]. unfold assign_all.
    rewrite lookup_fmap, Hproto.
    change (Immutable.toJS_deep <$> Some (IMap base))
      with (Some (Immutable.toJS_deep (IMap base))).
    rewrite toJS_deep_plain by done. simpl.
    rewrite lookup_delete_ne, lookup_fmap, Htitle by done. simpl.
    rewrite toJS_field. by intros [= <-]. }
  by do 7 eexists.
Qed.

End Sections.

(** ** The further properties at work on the sample stores *)

Lemma donors_render_cards_in_order_witness :
  Donors.render Examples.donors_loaded
  = Ok (Donors.page (NSeq
      [ Expected.donor_card Examples.donor_plain_fields;
        Expected.donor_card Examples.donor_pictured_fields ]))
  ∧ Expected.image Examples.donor_plain_fields = VStr ""
  ∧ Expected.image Examples.donor_pictured_fields = VStr "/media/bob.png".
Proof.
  split; [|split; vm_compute; reflexivity].
  apply (donors_render_cards_in_order Examples.donors_loaded
           [ Examples.donor_plain_fields; Examples.donor_pictured_fields ]).
  - vm_compute; reflexivity.
  - repeat constructor; vm_compute; reflexivity.
Defined.

Lemma donors_render_returns_iff_witness :
  Donors.render Examples.donors_untouched = Throw TypeError
  ∧ succeeds (Donors.render Examples.donors_loaded).
Proof.
  destruct (donors_render_returns_iff Examples.donors_untouched)
    as (_ & _ & Hmissing & _).
  destruct (donors_render_returns_iff Examples.donors_loaded)
    as (_ & Hloaded & _).
  split.
  - apply Hmissing. vm_compute; reflexivity.
  - apply Hloaded; [vm_compute; reflexivity|].
    left. exists [ Examples.donor_plain; Examples.donor_pictured ].
    split; [left; vm_compute; reflexivity|].
    repeat constructor.
Defined.

Lemma examples_signed_in_loaded : PostDetail.detail_loaded Examples.signed_in.
Proof.
  exists Examples.post_fields, [ IMap {[ "pk" := VNum 8 ]} ], [ Examples.comment ].
  split; [vm_compute; reflexivity|]. split; [vm_compute; reflexivity|].
  split; [by repeat constructor|]. split; [vm_compute; reflexivity|].
  repeat constructor.
  exists Examples.comment_fields, (IMap Examples.author_fields).
  split; [vm_compute; reflexivity|]. split; [vm_compute; reflexivity|done].
Qed.

Lemma post_detail_shows_post_witness :
  ∃ out crumbs pending fail second third,
    PostDetail.render Examples.moment_format Examples.immutable_toString
      Examples.API_PENDING Examples.API_SUCCESS Examples.API_FAIL
      Examples.anonymous
    = Ok out
    ∧ out = PostDetail.page crumbs
        [ pending; fail;
          NElem "div" [ ("className", str "page-content") ]
            [ Expected.post_section Examples.post_fields; second; third ] ].
Proof.
  destruct (post_detail_shows_post
              Examples.moment_format Examples.immutable_toString
              Examples.API_PENDING Examples.API_SUCCESS Examples.API_FAIL
              Examples.anonymous Examples.post_fields)
    as [Hrenders Hshape].
  - vm_compute; reflexivity.
  - vm_compute; reflexivity.
  - vm_compute; reflexivity.
  - destruct (Hrenders examples_anonymous_loaded) as [out Hout].
    destruct (Hshape out Hout) as (crumbs & pending & fail & second & third & ->).
    do 6 eexists. split; [exact Hout | reflexivity].
Defined.

Lemma post_detail_lists_comments_witness :
  ∃ out entries,
    PostDetail.render Examples.moment_format Examples.immutable_toString
      Examples.API_PENDING Examples.API_SUCCESS Examples.API_FAIL
      Examples.signed_in
    = Ok out
    ∧ select "Section" out !! 1
      = Some (NElem "Section" [ ("title", str "Comments (1)") ]
                [ NSeq entries; PostDetail.comment_form Examples.reader ])
    ∧ entries
      = [ Expected.comment_entry Examples.moment_format 0
            Examples.comment_fields Examples.author_fields ].
Proof.
  destruct (post_detail_lists_comments
              Examples.moment_format Examples.immutable_toString
              Examples.API_PENDING Examples.API_SUCCESS Examples.API_FAIL
              Examples.signed_in [ Examples.comment ])
    as [Hrenders Hshape].
  - vm_compute; reflexivity.
  - vm_compute; reflexivity.
  - done.
  - destruct (Hrenders examples_signed_in_loaded) as [out Hout].
    destruct (Hshape out Hout)
      as (crumbs & pending & fail & first & third & entries
          & -> & Hlength & Hentries).
    pose proof (Hentries 0 Examples.comment_fields Examples.author_fields
                  eq_refl eq_refl eq_refl eq_refl) as Hentry.
    destruct entries as [|entry [|? ?]]; try done.
    injection Hentry as ->.
    eexists _, _. split; [exact Hout|].
    revert Hout. vm_compute. intros [= <- <- <- <-]. by split.
Defined.

Lemma post_detail_comment_without_author_throws_witness :
  PostDetail.render Examples.moment_format Examples.immutable_toString
    Examples.API_PENDING Examples.API_SUCCESS Examples.API_FAIL
    Examples.with_orphan_comment
  = Throw TypeError.
Proof.
  apply (post_detail_comment_without_author_throws
           Examples.moment_format Examples.immutable_toString
           Examples.API_PENDING Examples.API_SUCCESS Examples.API_FAIL
           Examples.with_orphan_comment
           [ Examples.comment; Examples.orphan_comment ]
           Examples.orphan_comment).
  - vm_compute; reflexivity.
  - vm_compute; reflexivity.
  - right; left.
  - right. eexists. split; [reflexivity|].
    split; vm_compute; reflexivity.
Defined.

Lemma post_detail_lists_similar_posts_witness :
  ∃ out,
    PostDetail.render Examples.moment_format Examples.immutable_toString
      Examples.API_PENDING Examples.API_SUCCESS Examples.API_FAIL
      Examples.anonymous
    = Ok out
    ∧ select "PostItem" out !! 0
      = Some (NElem "PostItem"
                [ ("key", AVal VUndef);
                  ("post", AVal (IMap {[ "pk" := VNum 8 ]})) ] []).
Proof.
  eexists. split; [vm_compute; reflexivity|].
  destruct (post_detail_lists_similar_posts
              Examples.moment_format Examples.immutable_toString
              Examples.API_PENDING Examples.API_SUCCESS Examples.API_FAIL
              Examples.anonymous [ IMap {[ "pk" := VNum 8 ]} ]
              eq_refl eq_refl _ eq_refl) as [_ Hitems].
  exact (Hitems 0 _ eq_refl).
Defined.

Lemma post_detail_render_other_status_witness :
  ∃ crumbs,
    PostDetail.breadcrumbPath Examples.untouched = Ok crumbs
    ∧ PostDetail.render Examples.moment_format Examples.immutable_toString
        Examples.API_PENDING Examples.API_SUCCESS Examples.API_FAIL
        Examples.untouched
      = Ok (PostDetail.page crumbs [ nothing; nothing; nothing ]).
Proof.
  eexists. split; [vm_compute; reflexivity|].
  apply (post_detail_render_other_status
           Examples.moment_format Examples.immutable_toString
           Examples.API_PENDING Examples.API_SUCCESS Examples.API_FAIL
           Examples.untouched).
  - vm_compute; reflexivity.
  - vm_compute. intros Hin.
    repeat (apply elem_of_cons in Hin as [Hin|Hin]; [discriminate Hin|]).
    by apply elem_of_nil in Hin.
Defined.

(** ** The views call what they were given *)

(** Membership of each called creator in a list of bound ones. *)
Ltac among_bound :=
  let f := fresh "f" in let Hf := fresh "Hf" in
  intros f Hf;
  repeat (apply elem_of_cons in Hf as [->|Hf]);
  [ first [ by left | right; first [ by left | right; first [ by left | right; by left ] ] ] ..
  | by apply elem_of_nil in Hf ].

(** X10. Whatever happens to a view (mounting, new props, a submitted
    comment, a click on the sign-in link), every action creator it calls
    is one of those its own [actions] object binds into its props, so no
    call hits a missing prop; the listing view calls nothing but the
    list-page fetch. *)
Theorem views_call_only_bound_creators
    (donors : Donors.props) (this nextProps : PostDetail.props)
    (later : list PostDetail.props) (data : value) :
  Connect.called (Donors.componentWillMount donors) ⊆ Connect.donors_actions
  ∧ Connect.called (Session.run this later) ⊆ Connect.post_detail_actions
  ∧ Connect.called (PostDetail.componentWillReceiveProps this nextProps)
      ⊆ Connect.post_detail_actions
  ∧ Connect.called (PostDetail.handlePostComment this data)
      ⊆ Connect.post_detail_actions
  ∧ Connect.called (PostDetail.handleSignIn this) ⊆ Connect.post_detail_actions.
Proof.
  assert (∀ this nextProps,
    Connect.called (PostDetail.componentWillReceiveProps this nextProps)
      ⊆ Connect.post_detail_actions) as Hreceive.
  { intros p q. unfold PostDetail.componentWillReceiveProps.
    destruct (bool_decide _); simpl; among_bound. }
  split; [|split; [|split; [|split]]].
  - unfold Donors.componentWillMount. destruct (negb _); simpl; among_bound.
  - unfold Session.run, Connect.called. rewrite omap_app.
    apply list_subseteq_app_iff_l. split; [simpl; among_bound|].
    revert this. induction later as [|p later IH]; intros this;
      [simpl; among_bound|].
    cbn [Session.updates]. rewrite omap_app.
    apply list_subseteq_app_iff_l. split; [apply Hreceive | apply IH].
  - apply Hreceive.
  - simpl. among_bound.
  - simpl. among_bound.
Qed.

(** ** Renders and the date formatter *)









Lemma post_detail_inherits_title_witness :
  ∃ out,
    PostDetail.render Examples.moment_format Examples.immutable_toString
      Examples.API_PENDING Examples.API_SUCCESS Examples.API_FAIL
      Examples.with_inherited_title
    = Ok out
    ∧ select "Section" out !! 0
      = Some (Expected.post_section
                {[ "title" := VStr "Inherited";
                   "content" := VStr "<p>Hello</p>" ]}).
Proof.
  eexists. split; [vm_compute; reflexivity|].
  destruct (post_detail_inherits_title
              Examples.moment_format Examples.immutable_toString
              Examples.API_PENDING Examples.API_SUCCESS Examples.API_FAIL
              Examples.with_inherited_title
              {[ "__proto__" := IMap {[ "title" := VStr "Inherited";
                                        "content" := VStr "<p>Hello</p>" ]};
                 "similar_posts" := IList [] ]}
              {[ "title" := VStr "Inherited"; "content" := VStr "<p>Hello</p>" ]}
              eq_refl eq_refl eq_refl eq_refl eq_refl _ eq_refl)
    as (crumbs & pending & fail & src & html & second & third & Hout).
  vm_compute in Hout. injection Hout as <- <- <- <- <- <- <-.
  vm_compute. reflexivity.
Defined.
